(** * Qwipo recommender service: candidate generation and business re-ranking

    A shallow embedding of [get_hybrid_recommendations] (api_service.py) and of
    the Python and NumPy operations it is built from, with the properties of
    the recommendation pipeline proved over it.

    Numbers are modelled as the code has them: Python floats are IEEE 754
    binary64 values (Rocq's primitive [float], whose literals are rounded to
    the nearest binary64 value exactly as Python's are), Python ints are [Z],
    list positions are [nat]. *)

From Stdlib Require Import Floats ZArith Lia.
From stdpp Require Import gmap strings list fin_maps sorting pretty.

Set Warnings "-inexact-float".
Set Default Proof Using "Type".

(** ** The IEEE 754 comparison on binary64 values *)

Module FloatOrder.

(** The comparison of the specification floats is a total preorder once the
    NaN is set aside; the primitive operators inherit it through their
    specifications. *)

Definition sf_nan (x : spec_float) : bool :=
  match x with S754_nan => true | _ => false end.

Lemma SFcompare_None x y :
  SFcompare x y = None ↔ sf_nan x = true ∨ sf_nan y = true.
Proof.
  destruct x as [[]|[]| |[] mx ex], y as [[]|[]| |[] my ey]; simpl;
    split; intros; try discriminate; auto; destruct H; discriminate.
Qed.

Lemma SFcompare_refl x : sf_nan x = false → SFcompare x x = Some Eq.
Proof.
  destruct x as [[]|[]| |[] m e]; simpl; intros; try done.
  - by rewrite Z.compare_refl, Pos.compare_cont_refl.
  - by rewrite Z.compare_refl, Pos.compare_cont_refl.
Qed.

Lemma Pos_compare_cont_Eq_antisym p q :
  Pos.compare_cont Eq q p = CompOpp (Pos.compare_cont Eq p q).
Proof. apply (Pos.compare_antisym p q). Qed.

Lemma SFcompare_antisym x y :
  SFcompare y x = CompOpp <$> SFcompare x y.
Proof.
  destruct x as [[]|[]| |[] mx ex], y as [[]|[]| |[] my ey]; simpl; try done.
  - rewrite (Z.compare_antisym ex ey).
    destruct (ex ?= ey)%Z; simpl; try done.
    f_equal. rewrite Pos_compare_cont_Eq_antisym.
    by destruct (Pos.compare_cont Eq mx my).
  - rewrite (Z.compare_antisym ex ey).
    destruct (ex ?= ey)%Z; simpl; try done.
    f_equal. apply Pos_compare_cont_Eq_antisym.
Qed.

Lemma SFleb_trans x y z :
  SFleb x y = true → SFleb y z = true → SFleb x z = true.
Proof.
  unfold SFleb.
  destruct x as [[]|[]| |[] mx ex], y as [[]|[]| |[] my ey],
    z as [[]|[]| |[] mz ez]; simpl; try done;
    change (Pos.compare_cont Eq) with Pos.compare;
    destruct (Z.compare_spec ex ey), (Z.compare_spec ey ez),
      (Z.compare_spec ex ez); try done; try lia;
    destruct (Pos.compare_spec mx my), (Pos.compare_spec my mz),
      (Pos.compare_spec mx mz); simpl; try done; try lia.
Qed.

Lemma SFleb_total x y :
  sf_nan x = false → sf_nan y = false →
  SFleb x y = true ∨ SFleb y x = true.
Proof.
  unfold SFleb. rewrite (SFcompare_antisym x y).
  destruct (SFcompare x y) as [[]|] eqn:E; simpl; auto.
  apply SFcompare_None in E. intros. destruct E; congruence.
Qed.

Lemma SFltb_SFleb x y :
  sf_nan x = false → sf_nan y = false → SFltb x y = negb (SFleb y x).
Proof.
  unfold SFleb, SFltb. rewrite (SFcompare_antisym x y).
  destruct (SFcompare x y) as [[]|] eqn:E; simpl; auto.
  apply SFcompare_None in E. intros. destruct E; congruence.
Qed.

Lemma SFeqb_SFleb x y : SFeqb x y = SFleb x y && SFleb y x.
Proof.
  unfold SFleb, SFeqb. rewrite (SFcompare_antisym x y).
  by destruct (SFcompare x y) as [[]|].
Qed.

(** The same facts on primitive floats. *)

Lemma is_nan_spec x : is_nan x = sf_nan (Prim2SF x).
Proof.
  unfold is_nan. rewrite FloatAxioms.eqb_spec. unfold SFeqb.
  destruct (sf_nan (Prim2SF x)) eqn:E.
  - destruct (Prim2SF x); try done.
  - by rewrite SFcompare_refl.
Qed.

Lemma leb_trans x y z :
  (x <=? y)%float = true → (y <=? z)%float = true → (x <=? z)%float = true.
Proof. rewrite !FloatAxioms.leb_spec. apply SFleb_trans. Qed.

Lemma leb_total x y :
  is_nan x = false → is_nan y = false →
  (x <=? y)%float = true ∨ (y <=? x)%float = true.
Proof. rewrite !is_nan_spec, !FloatAxioms.leb_spec. apply SFleb_total. Qed.

Lemma leb_refl x : is_nan x = false → (x <=? x)%float = true.
Proof. intros. by destruct (leb_total x x). Qed.

Lemma ltb_leb x y :
  is_nan x = false → is_nan y = false →
  (x <? y)%float = negb (y <=? x)%float.
Proof. rewrite !is_nan_spec, !FloatAxioms.leb_spec, FloatAxioms.ltb_spec. apply SFltb_SFleb. Qed.

Lemma eqb_leb x y : (x =? y)%float = ((x <=? y) && (y <=? x))%float.
Proof. rewrite !FloatAxioms.leb_spec, FloatAxioms.eqb_spec. apply SFeqb_SFleb. Qed.

Lemma ltb_nan_l x y : is_nan x = true → (x <? y)%float = false.
Proof.
  rewrite is_nan_spec, FloatAxioms.ltb_spec. unfold SFltb.
  by destruct (Prim2SF x).
Qed.

Lemma ltb_nan_r x y : is_nan y = true → (x <? y)%float = false.
Proof.
  rewrite is_nan_spec, FloatAxioms.ltb_spec. unfold SFltb.
  by destruct (Prim2SF x), (Prim2SF y).
Qed.

Lemma leb_nan_l x y : is_nan x = true → (x <=? y)%float = false.
Proof.
  rewrite is_nan_spec, FloatAxioms.leb_spec. unfold SFleb.
  by destruct (Prim2SF x).
Qed.

Lemma leb_nan_r x y : is_nan y = true → (x <=? y)%float = false.
Proof.
  rewrite is_nan_spec, FloatAxioms.leb_spec. unfold SFleb.
  by destruct (Prim2SF x), (Prim2SF y).
Qed.

End FloatOrder.

(** ** The NumPy operations of the service *)

Module NumPy.

Import FloatOrder.

#[global] Instance float_inhabited : Inhabited float := populate 0%float.

(** *** Scalar arithmetic

    [model.predict] returns a float32 array, so [score] is a [np.float32]
    scalar, while the weights and the catalog figures are Python floats.
    What a float32 scalar combined with a Python float yields depends on the
    promotion rules of the installed NumPy, which the repository does not
    pin: under the legacy value-based rules the float32 operand is widened
    and the operation is a binary64 one; under NEP 50 (NumPy 2) the Python
    float is rounded to float32 and the operation is a binary32 one.  Both
    are modelled.  A float32 value is carried as the binary64 value it is
    equal to. *)

Inductive promotion := legacy | nep50.

#[global] Instance promotion_eq_dec : EqDecision promotion.
Proof. solve_decision. Defined.

Definition prec32 : Z := 24.
Definition emax32 : Z := 128.

(** Rounding of a specification float to binary32 (round to nearest even). *)
Definition SFround32 (x : spec_float) : spec_float :=
  match x with
  | S754_finite s m e => binary_round prec32 emax32 s m e
  | _ => x
  end.

(** [np.float32(x)] *)
Definition np_float32 (x : float) : float :=
  SF2Prim (SFround32 (Prim2SF x)).

Definition binop32 (op : Z → Z → spec_float → spec_float → spec_float)
    (x y : float) : float :=
  SF2Prim (op prec32 emax32 (SFround32 (Prim2SF x)) (SFround32 (Prim2SF y))).

Definition np_mul (p : promotion) (x y : float) : float :=
  match p with legacy => (x * y)%float | nep50 => binop32 SFmul x y end.

Definition np_add (p : promotion) (x y : float) : float :=
  match p with legacy => (x + y)%float | nep50 => binop32 SFadd x y end.

Definition np_sub (p : promotion) (x y : float) : float :=
  match p with legacy => (x - y)%float | nep50 => binop32 SFsub x y end.

(** *** [np.clip] on a Python float, and Python's [int / int]

    [np.clip x lo hi] is [minimum (maximum x lo) hi], both of which
    propagate a NaN. *)

Definition np_maximum (x y : float) : float :=
  if is_nan x then x else if is_nan y then y
  else if (x <? y)%float then y else x.

Definition np_minimum (x y : float) : float :=
  if is_nan x then x else if is_nan y then y
  else if (y <? x)%float then y else x.

Definition np_clip (x lo hi : float) : float :=
  np_minimum (np_maximum x lo) hi.

(** Python's true division of two ints: the quotient of the integers,
    rounded once to binary64 ([ZeroDivisionError] does not arise in the
    service, whose divisor is the literal 500). *)
Definition Z2SF (a : Z) : spec_float :=
  match a with
  | Z0 => S754_zero false
  | Zpos m => S754_finite false m 0
  | Zneg m => S754_finite true m 0
  end.

Definition py_truediv (a b : Z) : float :=
  SF2Prim (SFdiv prec emax (Z2SF a) (Z2SF b)).

(** *** The order [np.argsort] sorts by

    NumPy orders floats by [a < b || (b != b && a == a)]: the IEEE order,
    with every NaN placed after every number. *)

Definition np_lt (a b : float) : bool :=
  (a <? b)%float || (is_nan b && negb (is_nan a)).

Definition np_le (a b : float) : bool := negb (np_lt b a).

(** *** [np.argsort]

    [np.argsort a] (default [kind='quicksort'], an introsort or a SIMD sort
    depending on the build) returns the positions of [a] in an order that
    sorts [a]; how it orders equal elements is not specified.  It is
    therefore taken as an interface: any function returning a permutation
    of the positions that sorts the array. *)

Class Runtime := {
  scalar_promotion : promotion;
  argsort : list float → list nat;
  argsort_permutation a : argsort a ≡ₚ seq 0 (length a);
  argsort_sorted a :
    StronglySorted (λ x y, np_le x y = true) ((a !!!.) <$> argsort a);
}.

(** [np_le] is the IEEE [<=] on numbers, and puts every NaN last. *)

Lemma np_le_alt x y :
  np_le x y = is_nan y || (negb (is_nan x) && (x <=? y)%float).
Proof.
  unfold np_le, np_lt.
  destruct (is_nan x) eqn:Hx, (is_nan y) eqn:Hy; simpl.
  - by rewrite ltb_nan_r.
  - by rewrite ltb_nan_r.
  - by rewrite ltb_nan_l.
  - rewrite ltb_leb by done. by destruct (x <=? y)%float.
Qed.

Lemma np_le_leb x y :
  is_nan x = false → is_nan y = false → np_le x y = (x <=? y)%float.
Proof. intros Hx Hy. by rewrite np_le_alt, Hx, Hy. Qed.

#[global] Instance np_le_total : Total (λ x y, np_le x y = true).
Proof.
  intros x y. rewrite !np_le_alt.
  destruct (is_nan x) eqn:Hx, (is_nan y) eqn:Hy; simpl; auto.
  by apply leb_total.
Qed.

#[global] Instance np_le_trans : Transitive (λ x y, np_le x y = true).
Proof.
  intros x y z. rewrite !np_le_alt.
  destruct (is_nan x) eqn:Hx, (is_nan y) eqn:Hy, (is_nan z) eqn:Hz;
    simpl; try done.
  apply leb_trans.
Qed.

(** A reference implementation of the interface: a stable merge sort of
    the positions.  It shows that the interface can be met, and it is what
    the examples below are run with. *)

Definition index_le (a : list float) : relation nat :=
  λ i j, np_le (a !!! i) (a !!! j) = true.

#[global] Instance index_le_dec a i j : Decision (index_le a i j).
Proof. unfold index_le. apply _. Defined.

Definition stable_argsort (a : list float) : list nat :=
  merge_sort (index_le a) (seq 0 (length a)).

Lemma stable_argsort_permutation a :
  stable_argsort a ≡ₚ seq 0 (length a).
Proof. apply merge_sort_Permutation. Qed.

Lemma stable_argsort_sorted a :
  StronglySorted (λ x y, np_le x y = true) ((a !!!.) <$> stable_argsort a).
Proof.
  apply (StronglySorted_fmap _ (index_le a)); [done|].
  apply StronglySorted_merge_sort.
  - intros i j k. apply np_le_trans.
  - intros i j. apply np_le_total.
Qed.

Definition reference_runtime (p : promotion) : Runtime :=
  {| scalar_promotion := p;
     argsort := stable_argsort;
     argsort_permutation := stable_argsort_permutation;
     argsort_sorted := stable_argsort_sorted |}.

End NumPy.

(** ** The Python operations of the service *)

Module Python.

(** [l.sort(key=key, reverse=True)] on float keys.  Python's sort is stable
    and compares keys with [<] only; with [reverse=True] elements with
    equal keys keep their original order.  On keys that [<] orders totally
    (no NaN among them) the result of a stable sort is unique, so the
    insertion sort below is the list CPython produces. *)

Section Sort.
Context {A : Type} (key : A → float).

Fixpoint insert_reverse (x : A) (l : list A) : list A :=
  match l with
  | [] => [x]
  | y :: l' =>
      if (key x <? key y)%float then y :: insert_reverse x l' else x :: l
  end.

Definition sort_reverse (l : list A) : list A :=
  foldr insert_reverse [] l.
End Sort.

(** [l[:n]] for a non-negative [n] is [take n l]; [l[::-1]] is [reverse l];
    [enumerate] is [imap]. *)

End Python.

(** ** api_service.py *)

Module ApiService.

Import FloatOrder NumPy Python.

(** *** Data *)

(** A row of product_catalog.csv and of retailer_profiles.csv, as
    [to_dict('index')] keeps them ([load_artifacts] forces the categorical
    columns to ints). *)
Record product_row := {
  Category : Z;
  ProfitMargin : float;
  CurrentStock : Z;
}.

Record retailer_row := {
  StoreType : Z;
  LocationTier : Z;
}.

(** The eight aligned arrays handed to [model.predict], one row per
    product.  The [astype(np.int32)] and [astype(np.float32)] casts of the
    source only change the representation seen by the model, which is
    opaque here, so the arrays are kept with the values they are built
    from. *)
Record model_inputs := {
  r_id_input : list Z;
  st_input : list Z;
  lt_input : list Z;
  p_id_input : list Z;
  llm_vec_input : list (list float);
  cat_input : list Z;
  margin_input : list float;
  stock_input : list Z;
}.

(** The module's global namespace: the tunable constants, the loaded model
    (its [predict], flattened: the scores of a batch) and the five tables
    filled by [load_artifacts].  [product_map] is an association list
    because the order of its keys is the order of the batch; the other
    dicts are only looked up. *)
Record globals := {
  TOP_K_CANDIDATES : nat;
  FINAL_LIST_SIZE : nat;
  W_MODEL : float;
  W_PROFIT : float;
  W_STOCK : float;
  model : model_inputs → list float;
  retailer_map : gmap string Z;
  product_map : list (string * Z);
  product_vectors_data : gmap string (list float);
  product_catalog : gmap string product_row;
  retailer_profiles : gmap string retailer_row;
}.

Record RecommendationRequest := { retailer_id : string }.

Record RecommendationResponse := {
  product_id : string;
  predicted_score : float;
  final_rank : Z;
}.

(** *** Exceptions and effects

    Code that can only raise lives in the exception monad [outcome].  A
    request moreover runs against the module globals, calls the model and
    prints two progress lines: the state threaded through it is the globals
    together with the trace of what the request did to the outside. *)

Inductive exception :=
  | HTTPException (status_code : Z) (detail : string)
  | KeyError (key : string)
  | IndexError.

Inductive outcome (A : Type) :=
  | Returns (a : A)
  | Raises (e : exception).
Arguments Returns {A} a.
Arguments Raises {A} e.

#[global] Instance outcome_ret : MRet outcome := λ A a, Returns a.

#[global] Instance outcome_bind : MBind outcome := λ A B f o,
  match o with
  | Returns a => f a
  | Raises e => Raises e
  end.

#[global] Instance outcome_fmap : FMap outcome := λ A B f o,
  match o with
  | Returns a => Returns (f a)
  | Raises e => Raises e
  end.

(** [d[k]] on a dict and [l[i]] on a list (for a position [i >= 0]). *)
Definition dict_get {V} (d : gmap string V) (k : string) : outcome V :=
  match d !! k with
  | Some v => Returns v
  | None => Raises (KeyError k)
  end.

Definition list_get {V} (l : list V) (i : nat) : outcome V :=
  match l !! i with
  | Some v => Returns v
  | None => Raises IndexError
  end.

Inductive event :=
  | predict_call (x : model_inputs)
  | print_candidate_generation (retrieved : nat)
  | print_re_ranking (top : nat).

Record world := {
  module_globals : globals;
  trace : list event;
}.

Definition M (A : Type) : Type := world → outcome A * world.

#[global] Instance M_ret : MRet M := λ A a w, (Returns a, w).

#[global] Instance M_bind : MBind M := λ A B f m w,
  match m w with
  | (Returns a, w') => f a w'
  | (Raises e, w') => (Raises e, w')
  end.

Definition lift {A} (o : outcome A) : M A := λ w, (o, w).

Definition raise {A} (e : exception) : M A := lift (Raises e).

Definition read_globals : M globals :=
  λ w, (Returns (module_globals w), w).

Definition emit (ev : event) : M () :=
  λ w, (Returns (),
        {| module_globals := module_globals w; trace := trace w ++ [ev] |}).

(** [model.predict([...]).flatten()] *)
Definition predict (x : model_inputs) : M (list float) :=
  g ← read_globals;
  _ ← emit (predict_call x);
  mret (model g x).

(** *** The re-ranking formula (the body of the loop over the candidates) *)

Definition normalized_margin (profit_margin : float) : float :=
  ((profit_margin - 0.1) / (0.4 - 0.1))%float.

Definition normalized_stock (current_stock : Z) : float :=
  np_clip (py_truediv current_stock 500) 0 1.

Definition stock_penalty (current_stock : Z) : float :=
  if (current_stock <? 50)%Z then 1.0%float else 0.0%float.

Section Service.
Context `{Runtime}.

Definition final_score (g : globals) (score : float) (p_data : product_row)
    : float :=
  let profit_margin := ProfitMargin p_data in
  let current_stock := CurrentStock p_data in
  let normalized_margin := normalized_margin profit_margin in
  let normalized_stock := normalized_stock current_stock in
  let stock_penalty := stock_penalty current_stock in
  np_sub scalar_promotion
    (np_add scalar_promotion
       (np_mul scalar_promotion (W_MODEL g) score)
       (W_PROFIT g * normalized_margin)%float)
    (W_STOCK g * stock_penalty)%float.

(** **** 1. Candidate generation *)

(** "Construct input for ALL products": the batch handed to the model,
    the retailer's features repeated on every row. *)
Definition build_inputs (g : globals) (retailer_idx : Z)
    (retailer_data : retailer_row) : outcome model_inputs :=
  let st_data_int := StoreType retailer_data in
  let lt_data_int := LocationTier retailer_data in
  let all_product_ids := (product_map g).*1 in
  let all_product_indices := (product_map g).*2 in
  let num_products := length all_product_ids in
  let r_id_input := replicate num_products retailer_idx in
  let st_input := replicate num_products st_data_int in
  let lt_input := replicate num_products lt_data_int in
  let p_id_input := all_product_indices in
  llm_vec_input ←
    mapM (dict_get (product_vectors_data g)) all_product_ids;
  cat_input ←
    mapM (λ pid, Category <$> dict_get (product_catalog g) pid)
      all_product_ids;
  margin_input ←
    mapM (λ pid, ProfitMargin <$> dict_get (product_catalog g) pid)
      all_product_ids;
  stock_input ←
    mapM (λ pid, CurrentStock <$> dict_get (product_catalog g) pid)
      all_product_ids;
  mret {| r_id_input := r_id_input; st_input := st_input;
          lt_input := lt_input; p_id_input := p_id_input;
          llm_vec_input := llm_vec_input; cat_input := cat_input;
          margin_input := margin_input; stock_input := stock_input |}.

(** [np.argsort(predictions)[::-1][:k]] *)
Definition top_indices (k : nat) (predictions : list float) : list nat :=
  take k (reverse (argsort predictions)).

(** "Get top 500 candidates by Model Relevance Score": the scores and
    the ids of the shortlisted products, in shortlist order. *)
Definition select_candidates (g : globals) (predictions : list float)
    : outcome (list float * list string) :=
  let all_product_ids := (product_map g).*1 in
  let top_indices := top_indices (TOP_K_CANDIDATES g) predictions in
  candidate_predictions ← mapM (list_get predictions) top_indices;
  candidate_pids ← mapM (list_get all_product_ids) top_indices;
  mret (candidate_predictions, candidate_pids).

(** **** 2. Re-ranking *)

(** One iteration of [for score, pid in zip(...)]: the triple appended to
    [final_scores]. *)
Definition rerank_candidate (g : globals) (c : float * string)
    : outcome (string * float * float) :=
  let '(score, pid) := c in
  p_data ← dict_get (product_catalog g) pid;
  mret (pid, final_score g score p_data, score).

(** The loop: [final_scores] before it is sorted. *)
Definition rerank (g : globals) (candidate_predictions : list float)
    (candidate_pids : list string) : outcome (list (string * float * float)) :=
  mapM (rerank_candidate g) (zip candidate_predictions candidate_pids).

(** [final_scores.sort(key=lambda x: x[1], reverse=True)] *)
Definition sort_final_scores (final_scores : list (string * float * float))
    : list (string * float * float) :=
  sort_reverse (λ x, x.1.2) final_scores.

(** **** 3. Final output *)

Definition response_of (rank : nat) (x : string * float * float)
    : RecommendationResponse :=
  let '(pid, final_score, model_score) := x in
  {| product_id := pid;
     predicted_score := model_score;
     final_rank := Z.of_nat rank + 1 |}.

(** The responses built from [enumerate(final_scores[:FINAL_LIST_SIZE])]. *)
Definition final_output (g : globals)
    (final_scores : list (string * float * float))
    : list RecommendationResponse :=
  imap response_of (take (FINAL_LIST_SIZE g) final_scores).

(** **** The endpoint *)

Definition get_hybrid_recommendations (request : RecommendationRequest)
    : M (list RecommendationResponse) :=
  g ← read_globals;
  let retailer_id := retailer_id request in
  if bool_decide (retailer_map g !! retailer_id = None)
  then raise (HTTPException 404 "Retailer not found.")
  else
    retailer_idx ← lift (dict_get (retailer_map g) retailer_id);
    retailer_data ← lift (dict_get (retailer_profiles g) retailer_id);
    inputs ← lift (build_inputs g retailer_idx retailer_data);
    predictions ← predict inputs;
    '(candidate_predictions, candidate_pids) ←
      lift (select_candidates g predictions);
    _ ← emit (print_candidate_generation (length candidate_pids));
    final_scores ← lift (rerank g candidate_predictions candidate_pids);
    let final_scores := sort_final_scores final_scores in
    let response_list := final_output g final_scores in
    _ ← emit (print_re_ranking (FINAL_LIST_SIZE g));
    mret response_list.

End Service.

End ApiService.

(** ** Properties of the Python sort *)

Module SortFacts.

Import FloatOrder Python.

Section Sort.
Context {A : Type} (key : A → float).

(** The order [sort_reverse] produces: keys descending. *)
Definition descending : relation A :=
  λ x y, (key y <=? key x)%float = true.

(** Two elements are tied when their keys compare equal. *)
Definition tied_with (k : float) (x : A) : Prop :=
  (key x =? k)%float = true.

#[global] Instance tied_with_dec k x : Decision (tied_with k x).
Proof. unfold tied_with. apply _. Defined.

Definition no_nan_key (l : list A) : Prop :=
  Forall (λ x, is_nan (key x) = false) l.

Lemma insert_reverse_perm x l : insert_reverse key x l ≡ₚ x :: l.
Proof.
  induction l as [|y l IH]; simpl; [done|].
  destruct (key x <? key y)%float; [|done].
  rewrite IH. apply Permutation_swap.
Qed.

Lemma sort_reverse_perm l : sort_reverse key l ≡ₚ l.
Proof.
  induction l as [|x l IH]; simpl; [done|].
  change (foldr (insert_reverse key) [] l) with (sort_reverse key l).
  by rewrite insert_reverse_perm, IH.
Qed.

Lemma sort_reverse_length l : length (sort_reverse key l) = length l.
Proof. apply Permutation_length, sort_reverse_perm. Qed.

Lemma ltb_descending x y :
  is_nan (key x) = false → is_nan (key y) = false →
  (key x <? key y)%float = true → descending y x.
Proof.
  intros Hx Hy Hlt. unfold descending.
  rewrite ltb_leb in Hlt by done.
  destruct (leb_total (key x) (key y)) as [?|Hyx]; [done..|].
  by rewrite Hyx in Hlt.
Qed.

Lemma not_ltb_descending x y :
  is_nan (key x) = false → is_nan (key y) = false →
  (key x <? key y)%float = false → descending x y.
Proof.
  intros Hx Hy Hlt. unfold descending.
  rewrite ltb_leb in Hlt by done.
  by destruct (key y <=? key x)%float.
Qed.

Lemma descending_trans x y z :
  descending x y → descending y z → descending x z.
Proof. unfold descending. intros ??. by apply leb_trans with (key y). Qed.

Lemma insert_reverse_sorted x l :
  is_nan (key x) = false → no_nan_key l →
  StronglySorted descending l →
  StronglySorted descending (insert_reverse key x l).
Proof.
  intros Hx Hl Hs. induction Hs as [|y l Hs IH Hy]; simpl.
  - repeat constructor.
  - apply Forall_cons in Hl as [Hny Hl].
    destruct (key x <? key y)%float eqn:Hlt.
    + constructor; [by apply IH|].
      rewrite insert_reverse_perm. constructor; [|done].
      by apply ltb_descending.
    + assert (descending x y) by by apply not_ltb_descending.
      constructor; [by constructor|].
      constructor; [done|].
      eapply Forall_impl; [exact Hy|].
      intros z ?. by apply descending_trans with y.
Qed.

Lemma no_nan_key_perm l1 l2 : l1 ≡ₚ l2 → no_nan_key l1 → no_nan_key l2.
Proof. unfold no_nan_key. by intros ->. Qed.

Lemma sort_reverse_sorted l :
  no_nan_key l → StronglySorted descending (sort_reverse key l).
Proof.
  induction l as [|x l IH]; simpl; [constructor|].
  intros [Hx Hl]%Forall_cons.
  apply insert_reverse_sorted; [done| |by apply IH].
  by apply (no_nan_key_perm l); [symmetry; apply sort_reverse_perm|].
Qed.

(** Stability: the elements tied at any one key come out in the order
    they went in. *)
Lemma insert_reverse_tied k x l :
  is_nan (key x) = false → no_nan_key l →
  filter (tied_with k) (insert_reverse key x l)
  = filter (tied_with k) (x :: l).
Proof.
  intros Hx Hl. induction l as [|y l IH]; simpl; [done|].
  apply Forall_cons in Hl as [Hy Hl].
  destruct (key x <? key y)%float eqn:Hlt; [|done].
  rewrite !filter_cons, IH by done. rewrite filter_cons.
  destruct (decide (tied_with k x)) as [Hkx|]; [|done].
  destruct (decide (tied_with k y)) as [Hky|]; [|done].
  exfalso. unfold tied_with in *.
  rewrite eqb_leb in Hkx, Hky.
  apply andb_true_iff in Hkx as [Hxk Hkx], Hky as [Hyk Hky].
  rewrite ltb_leb in Hlt by done.
  by rewrite (leb_trans _ _ _ Hyk Hkx) in Hlt.
Qed.

Lemma sort_reverse_stable k l :
  no_nan_key l →
  filter (tied_with k) (sort_reverse key l) = filter (tied_with k) l.
Proof.
  induction l as [|x l IH]; simpl; [done|].
  intros [Hx Hl]%Forall_cons.
  change (foldr (insert_reverse key) [] l) with (sort_reverse key l).
  rewrite insert_reverse_tied; [|done|].
  - by rewrite !filter_cons, IH.
  - by apply (no_nan_key_perm l); [symmetry; apply sort_reverse_perm|].
Qed.

End Sort.

End SortFacts.

(** ** Properties of the endpoint *)

Module Properties.

Import FloatOrder NumPy Python ApiService SortFacts.

(** *** The exception monad *)

Section Outcome.
Context {A B : Type} (f : A → outcome B).

Lemma mapM_Returns_1 l k :
  mapM f l = Returns k → Forall2 (λ x y, f x = Returns y) l k.
Proof.
  revert k. induction l as [|x l IH]; intros k; simpl.
  - intros [= <-]. constructor.
  - unfold mbind, outcome_bind. destruct (f x) as [y|] eqn:Hx; [|done].
    destruct (mapM f l) as [k'|]; [|done].
    intros [= <-]. constructor; [done|]. by apply IH.
Qed.

Lemma mapM_Returns_2 l k :
  Forall2 (λ x y, f x = Returns y) l k → mapM f l = Returns k.
Proof.
  induction 1 as [|x y l k Hx _ IH]; [done|].
  change (mapM f (x :: l)) with (y ← f x; k ← mapM f l; mret (y :: k)).
  by rewrite Hx, IH.
Qed.

Lemma mapM_Returns_length l k : mapM f l = Returns k → length k = length l.
Proof. intros Hk%mapM_Returns_1. symmetry. by eapply Forall2_length. Qed.

Lemma mapM_Returns_total l :
  Forall (λ x, ∃ y, f x = Returns y) l → ∃ k, mapM f l = Returns k.
Proof.
  induction 1 as [|x l [y Hy] _ [k IH]].
  - by exists [].
  - exists (y :: k).
    change (mapM f (x :: l)) with (y ← f x; k ← mapM f l; mret (y :: k)).
    by rewrite Hy, IH.
Qed.
End Outcome.

Lemma dict_get_Returns {V} (d : gmap string V) k v :
  dict_get d k = Returns v ↔ d !! k = Some v.
Proof.
  unfold dict_get. destruct (d !! k); split; intros; by simplify_eq.
Qed.

Lemma list_get_Returns {V} (l : list V) i v :
  list_get l i = Returns v ↔ l !! i = Some v.
Proof.
  unfold list_get. destruct (l !! i); split; intros; by simplify_eq.
Qed.

(** *** Requests leave the module globals alone *)

Definition preserves_globals {A} (m : M A) : Prop :=
  ∀ w, module_globals (m w).2 = module_globals w.

Lemma preserves_ret {A} (a : A) : preserves_globals (mret a).
Proof. done. Qed.

Lemma preserves_lift {A} (o : outcome A) : preserves_globals (lift o).
Proof. done. Qed.

Lemma preserves_read : preserves_globals read_globals.
Proof. done. Qed.

Lemma preserves_emit ev : preserves_globals (emit ev).
Proof. done. Qed.

Lemma preserves_bind {A B} (m : M A) (f : A → M B) :
  preserves_globals m → (∀ a, preserves_globals (f a)) →
  preserves_globals (m ≫= f).
Proof.
  intros Hm Hf w. unfold mbind, M_bind. specialize (Hm w).
  destruct (m w) as [[a|e] w']; simpl in *; [|done].
  by rewrite Hf.
Qed.

Lemma preserves_predict x : preserves_globals (predict x).
Proof. done. Qed.

Lemma preserves_get_hybrid_recommendations `{Runtime} request :
  preserves_globals (get_hybrid_recommendations request).
Proof.
  unfold get_hybrid_recommendations.
  apply preserves_bind; [apply preserves_read|]. intros g.
  case_bool_decide; [apply preserves_lift|].
  repeat first
    [ apply preserves_ret | apply preserves_lift | apply preserves_emit
    | apply preserves_predict
    | apply preserves_bind; [|intros ?]
    | match goal with
      | |- preserves_globals (let '(_, _) := ?p in _) => destruct p
      end ].
Qed.

(** *** What a request does, step by step

    [after w evs] is the world [w] once the events [evs] have happened. *)

Definition after (w : world) (evs : list event) : world :=
  {| module_globals := module_globals w; trace := trace w ++ evs |}.

Lemma get_hybrid_recommendations_run `{Runtime} request w :
  get_hybrid_recommendations request w =
    let g := module_globals w in
    let rid := retailer_id request in
    match retailer_map g !! rid with
    | None => (Raises (HTTPException 404 "Retailer not found."), w)
    | Some retailer_idx =>
    match retailer_profiles g !! rid with
    | None => (Raises (KeyError rid), w)
    | Some retailer_data =>
    match build_inputs g retailer_idx retailer_data with
    | Raises e => (Raises e, w)
    | Returns inputs =>
    match select_candidates g (model g inputs) with
    | Raises e => (Raises e, after w [predict_call inputs])
    | Returns (candidate_predictions, candidate_pids) =>
    let printed := print_candidate_generation (length candidate_pids) in
    match rerank g candidate_predictions candidate_pids with
    | Raises e => (Raises e, after w [predict_call inputs; printed])
    | Returns final_scores =>
        (Returns (final_output g (sort_final_scores final_scores)),
         after w [predict_call inputs; printed;
                  print_re_ranking (FINAL_LIST_SIZE g)])
    end end end end end.
Proof.
  unfold get_hybrid_recommendations, after, predict, emit, read_globals,
    raise, lift, dict_get.
  unfold mbind, M_bind, mret, M_ret. cbv beta iota zeta.
  case_bool_decide as Hrid; [by rewrite Hrid|].
  destruct (retailer_map _ !! _) as [retailer_idx|]; [clear Hrid|done].
  destruct (retailer_profiles _ !! _) as [retailer_data|]; [|done].
  destruct (build_inputs _ _ _) as [inputs|]; [|done].
  destruct (select_candidates _ _) as [[cp cpid]|]; [|done].
  destruct (rerank _ _ _) as [fs|]; cbn [module_globals trace];
    by rewrite <- ?(assoc_L (++)).
Qed.

(** *** Candidate selection *)

Lemma StronglySorted_fmap_inv {A B} (f : A → B) (R : relation B) l :
  StronglySorted R (f <$> l) → StronglySorted (λ x y, R (f x) (f y)) l.
Proof.
  induction l as [|x l IH]; csimpl; [constructor|].
  rewrite !StronglySorted_cons, Forall_fmap. intros [??]. auto.
Qed.

Lemma StronglySorted_reverse {A} (R : relation A) l :
  StronglySorted R l → StronglySorted (flip R) (reverse l).
Proof.
  induction 1 as [|x l _ IH Hx]; [constructor|].
  rewrite reverse_cons. apply StronglySorted_app_2; [|done|repeat constructor].
  intros y z Hy ->%list_elem_of_singleton.
  rewrite elem_of_reverse in Hy. rewrite Forall_forall in Hx. by apply Hx.
Qed.

Section Selection.
Context `{Runtime} (predictions : list float).

(** The order of the shortlist: the score at position [i] is not below
    the score at position [j]. *)
Definition outranks (i j : nat) : Prop :=
  np_le (predictions !!! j) (predictions !!! i) = true.

Lemma reverse_argsort_permutation :
  reverse (argsort predictions) ≡ₚ seq 0 (length predictions).
Proof. rewrite reverse_Permutation. apply argsort_permutation. Qed.

Lemma reverse_argsort_sorted :
  StronglySorted outranks (reverse (argsort predictions)).
Proof.
  apply (StronglySorted_reverse (λ i j, outranks j i)).
  apply (StronglySorted_fmap_inv (predictions !!!.)
           (λ x y, np_le x y = true)).
  apply argsort_sorted.
Qed.

Lemma top_indices_length k :
  length (top_indices k predictions) = k `min` length predictions.
Proof.
  unfold top_indices.
  by rewrite length_take, reverse_argsort_permutation, length_seq.
Qed.

Lemma top_indices_split k :
  top_indices k predictions ++ drop k (reverse (argsort predictions))
  ≡ₚ seq 0 (length predictions).
Proof.
  unfold top_indices. rewrite take_drop.
  apply reverse_argsort_permutation.
Qed.

Lemma top_indices_NoDup k : NoDup (top_indices k predictions).
Proof.
  pose proof (NoDup_seq 0 (length predictions)) as Hs.
  rewrite <- (top_indices_split k) in Hs. by apply NoDup_app in Hs as [? _].
Qed.

Lemma top_indices_lt k i :
  i ∈ top_indices k predictions → i < length predictions.
Proof.
  intros Hi.
  assert (i ∈ seq 0 (length predictions)) as Hs.
  { rewrite <- (top_indices_split k). apply elem_of_app. by left. }
  apply elem_of_seq in Hs. lia.
Qed.

Lemma top_indices_sorted k :
  StronglySorted outranks (top_indices k predictions).
Proof.
  unfold top_indices. eapply StronglySorted_app_1_l.
  rewrite take_drop. apply reverse_argsort_sorted.
Qed.

Lemma top_indices_dominate k i j :
  i ∈ top_indices k predictions → j < length predictions →
  j ∉ top_indices k predictions → outranks i j.
Proof.
  intros Hi Hj Hnj.
  assert (j ∈ drop k (reverse (argsort predictions))) as Hd.
  { assert (j ∈ seq 0 (length predictions)) as Hs
      by (apply elem_of_seq; lia).
    rewrite <- (top_indices_split k) in Hs.
    by apply elem_of_app in Hs as [?|?]. }
  eapply StronglySorted_app_1_elem_of; [|exact Hi|exact Hd].
  unfold top_indices. rewrite take_drop. apply reverse_argsort_sorted.
Qed.

Lemma top_indices_all k :
  length predictions ≤ k →
  top_indices k predictions ≡ₚ seq 0 (length predictions).
Proof.
  intros Hk. unfold top_indices. rewrite take_ge.
  - apply reverse_argsort_permutation.
  - by rewrite reverse_argsort_permutation, length_seq.
Qed.

End Selection.

(** *** Successful requests *)

Lemma mapM_list_get `{Inhabited V} (l : list V) (idx : list nat) :
  (∀ i, i ∈ idx → i < length l) →
  mapM (list_get l) idx = Returns ((l !!!.) <$> idx).
Proof.
  intros Hidx. apply mapM_Returns_2, Forall2_fmap_r, Forall_Forall2_diag.
  apply Forall_forall. intros i Hi%Hidx. apply list_get_Returns.
  by apply list_lookup_lookup_total_lt.
Qed.

Lemma zip_fmap_diag {A B C} (f : A → B) (h : A → C) (l : list A) :
  zip (f <$> l) (h <$> l) = (λ x, (f x, h x)) <$> l.
Proof. induction l as [|x l IH]; csimpl; by f_equal. Qed.

(** The catalog covers the products of [product_map]: every product id has
    a catalog row and a content vector. *)
Definition catalog_covers (g : globals) : Prop :=
  ∀ pid, pid ∈ (product_map g).*1 →
    is_Some (product_catalog g !! pid)
    ∧ is_Some (product_vectors_data g !! pid).

(** The scorer returns one score per row of the batch. *)
Definition one_score_per_product (g : globals) : Prop :=
  ∀ x, length (model g x) = length (p_id_input x).

Lemma build_inputs_Returns g retailer_idx retailer_data :
  catalog_covers g →
  ∃ inputs, build_inputs g retailer_idx retailer_data = Returns inputs
    ∧ p_id_input inputs = (product_map g).*2.
Proof.
  intros Hcov. unfold build_inputs.
  destruct (mapM_Returns_total (dict_get (product_vectors_data g))
              (product_map g).*1) as [llm ->].
  { apply Forall_forall. intros pid [_ [v Hv]]%Hcov.
    exists v. by apply dict_get_Returns. }
  assert (∀ {B} (f : product_row → B),
    ∃ k, mapM (λ pid, f <$> dict_get (product_catalog g) pid)
           (product_map g).*1 = Returns k) as Hcol.
  { intros B f. apply mapM_Returns_total, Forall_forall.
    intros pid [[row Hrow] _]%Hcov. exists (f row).
    unfold dict_get. by rewrite Hrow. }
  destruct (Hcol _ Category) as [cat ->].
  destruct (Hcol _ ProfitMargin) as [margin ->].
  destruct (Hcol _ CurrentStock) as [stock ->].
  by eexists.
Qed.

Section Run.
Context `{Runtime} (g : globals) (predictions : list float).

(** The shortlist when there is one score per product: the scores and the
    ids at the selected positions. *)
Lemma select_candidates_Returns :
  length predictions = length (product_map g) →
  select_candidates g predictions
  = Returns ((predictions !!!.) <$> top_indices (TOP_K_CANDIDATES g) predictions,
             ((product_map g).*1 !!!.)
               <$> top_indices (TOP_K_CANDIDATES g) predictions).
Proof.
  intros Hlen. unfold select_candidates.
  rewrite !mapM_list_get; [done|..]; intros i Hi%top_indices_lt;
    rewrite ?length_fmap; lia.
Qed.

Lemma rerank_Returns (idx : list nat) :
  catalog_covers g →
  (∀ i, i ∈ idx → i < length (product_map g)) →
  ∃ final_scores,
    rerank g ((predictions !!!.) <$> idx) (((product_map g).*1 !!!.) <$> idx)
    = Returns final_scores
    ∧ Forall2
        (λ i t, t.1.1 = (product_map g).*1 !!! i ∧ t.2 = predictions !!! i)
        idx final_scores.
Proof.
  intros Hcov Hidx. unfold rerank. rewrite zip_fmap_diag.
  induction idx as [|i idx IH].
  { exists []. split; [done|constructor]. }
  destruct IH as (fs & Hfs & Hall).
  { intros j Hj. apply Hidx. by right. }
  destruct (Hcov ((product_map g).*1 !!! i)) as [[row Hrow] _].
  { apply list_elem_of_lookup_total_2. rewrite length_fmap. apply Hidx. by left. }
  eexists. split.
  - rewrite fmap_cons.
    change (mapM ?f (?x :: ?l)) with (y ← f x; k ← mapM f l; mret (y :: k)).
    rewrite Hfs. unfold rerank_candidate at 1, dict_get. rewrite Hrow.
    reflexivity.
  - by constructor.
Qed.

End Run.

(** The ranks of a response list are 1, 2, ... in order. *)
Lemma final_rank_imap (k : nat) (l : list (string * float * float)) :
  final_rank <$> imap (λ n, response_of (k + n)) l
  = Z.of_nat <$> seq (S k) (length l).
Proof.
  revert k. induction l as [|[[pid fs] ms] l IH]; intros k; [done|].
  rewrite imap_cons. csimpl. f_equal.
  - rewrite Nat.add_0_r. lia.
  - rewrite <- IH. f_equal. apply imap_ext. intros n t _. simpl.
    by rewrite Nat.add_succ_r.
Qed.

Lemma final_output_ranks g final_scores :
  final_rank <$> final_output g final_scores
  = Z.of_nat <$> seq 1 (length (final_output g final_scores)).
Proof.
  unfold final_output. rewrite length_imap. apply (final_rank_imap 0).
Qed.

Lemma final_output_length g final_scores :
  length (final_output g final_scores)
  = FINAL_LIST_SIZE g `min` length final_scores.
Proof. unfold final_output. by rewrite length_imap, length_take. Qed.

(** Every response is built from one of the scored triples. *)
Lemma final_output_elem_of g final_scores r :
  r ∈ final_output g final_scores →
  ∃ t, t ∈ final_scores ∧ product_id r = t.1.1 ∧ predicted_score r = t.2.
Proof.
  unfold final_output. intros (n & t & -> & Ht)%elem_of_lookup_imap.
  exists t. split.
  - apply list_elem_of_lookup_2 in Ht. by eapply subseteq_take.
  - by destruct t as [[??]?].
Qed.

End Properties.

(** ** A small deployment to run the endpoint on

    The end-to-end scenario of the specification: three products with
    relevance scores 0.9, 0.8 and 0.7 (as the float32 values a model emits,
    one per row of the batch),
    margins 0.1, 0.4 and 0.25 and stocks 10, 200 and 60, under the weights
    and sizes of api_service.py. *)

Module Example.

Import NumPy ApiService Properties.

Definition scores : list float :=
  [np_float32 0.9; np_float32 0.8; np_float32 0.7].

Definition deployment : globals := {|
  TOP_K_CANDIDATES := 500;
  FINAL_LIST_SIZE := 10;
  W_MODEL := 0.5;
  W_PROFIT := 0.3;
  W_STOCK := 0.2;
  model := λ x, imap (λ i _, scores !!! i) (p_id_input x);
  retailer_map := {[ "R001" := 0%Z; "R002" := 1%Z ]};
  product_map := [("P0000", 0%Z); ("P0001", 1%Z); ("P0002", 2%Z)];
  product_vectors_data :=
    {[ "P0000" := [0.5%float]; "P0001" := [0.25%float];
       "P0002" := [0.125%float] ]};
  product_catalog :=
    {[ "P0000" := {| Category := 0; ProfitMargin := 0.1; CurrentStock := 10 |};
       "P0001" := {| Category := 1; ProfitMargin := 0.4; CurrentStock := 200 |};
       "P0002" := {| Category := 2; ProfitMargin := 0.25; CurrentStock := 60 |} ]};
  retailer_profiles := {[ "R001" := {| StoreType := 1; LocationTier := 2 |} ]};
|}.

(** A world in which nothing has happened yet, and one with a history. *)
Definition fresh : world := {| module_globals := deployment; trace := [] |}.

Definition used : world := after fresh [print_re_ranking 10].

Definition R001 : RecommendationRequest := {| retailer_id := "R001" |}.
Definition R002 : RecommendationRequest := {| retailer_id := "R002" |}.
Definition R999 : RecommendationRequest := {| retailer_id := "R999" |}.

(** Whatever [np.argsort] does with ties, the three scores are distinct, so
    it can only return the positions in the order 2, 1, 0. *)
Lemma argsort_scores `{Runtime} : argsort scores = [2; 1; 0].
Proof.
  pose proof (argsort_permutation scores) as Hperm.
  pose proof (argsort_sorted scores) as Hsorted.
  pose proof (NoDup_seq 0 (length scores)) as Hnodup.
  rewrite <- Hperm in Hnodup.
  assert (∀ i, i ∈ argsort scores → i = 0 ∨ i = 1 ∨ i = 2) as Hin.
  { intros i. rewrite Hperm, elem_of_seq. cbn. lia. }
  pose proof (Permutation_length Hperm) as Hlen.
  destruct (argsort scores) as [|a [|b [|c [|d l]]]]; try done.
  destruct (Hin a) as [-> | [-> | ->]]; [by left|..];
    (destruct (Hin b) as [-> | [-> | ->]]; [by right; left|..]);
    (destruct (Hin c) as [-> | [-> | ->]]; [by right; right; left|..]);
    try done;
    try (exfalso; apply NoDup_cons in Hnodup as [Ha Hnodup];
         apply Ha; by repeat constructor);
    try (exfalso; apply NoDup_cons in Hnodup as [_ Hnodup];
         apply NoDup_cons in Hnodup as [Hb _]; apply Hb; by repeat constructor);
    exfalso; revert Hsorted;
    apply (bool_decide_eq_false_1 (StronglySorted _ _)); by vm_compute.
Qed.

(** The request of retailer R001, on any NumPy: the product with the
    highest relevance (P0000, low on stock) comes last. *)
Lemma R001_run `{Runtime} w :
  module_globals w = deployment →
  (get_hybrid_recommendations R001 w).1
  = Returns
      [ {| product_id := "P0001"; predicted_score := np_float32 0.8;
           final_rank := 1 |};
        {| product_id := "P0002"; predicted_score := np_float32 0.7;
           final_rank := 2 |};
        {| product_id := "P0000"; predicted_score := np_float32 0.9;
           final_rank := 3 |} ].
Proof.
  intros Hw. rewrite get_hybrid_recommendations_run. cbv zeta. rewrite Hw.
  change (retailer_map deployment !! retailer_id R001) with (Some 0%Z).
  change (retailer_profiles deployment !! retailer_id R001)
    with (Some {| StoreType := 1; LocationTier := 2 |}).
  cbv iota beta.
  destruct (build_inputs deployment 0 _) as [inputs|] eqn:Hinputs;
    [|by vm_compute in Hinputs].
  assert (model deployment inputs = scores) as ->.
  { vm_compute in Hinputs. injection Hinputs as <-. by vm_compute. }
  assert (select_candidates deployment scores
          = Returns (scores, ["P0000"; "P0001"; "P0002"])) as ->.
  { unfold select_candidates, top_indices. rewrite argsort_scores.
    by vm_compute. }
  unfold rerank, rerank_candidate, final_score.
  destruct scalar_promotion; by vm_compute.
Qed.

End Example.

(** ** Rounding in margin normalization

    [normalized_margin] subtracts and divides binary64 numbers, and each of
    the two operations rounds.  This module bounds the result for every
    margin below 0.1 and for every margin above the successor of 0.4, over
    the specification of binary64 arithmetic of the Standard Library
    ([SpecFloat]). *)

Module Binary64.

Import ApiService.

Local Open Scope Z_scope.

Lemma digits2_pos_log2 m : Zpos (digits2_pos m) = Z.log2 (Zpos m) + 1.
Proof.
  induction m as [m IH|m IH|]; simpl; try reflexivity.
  - rewrite Pos2Z.inj_succ, IH. destruct m; simpl; try lia.
    all: unfold Z.log2; simpl; lia.
  - rewrite Pos2Z.inj_succ, IH. destruct m; simpl; try lia.
    all: unfold Z.log2; simpl; lia.
Qed.

Lemma digits2_pos_bounds m :
  2 ^ (Zpos (digits2_pos m) - 1) <= Zpos m < 2 ^ Zpos (digits2_pos m).
Proof.
  rewrite digits2_pos_log2.
  replace (Z.log2 (Z.pos m) + 1 - 1) with (Z.log2 (Zpos m)) by lia.
  apply (Z.log2_spec (Zpos m)). lia.
Qed.

(** Shifting a mantissa to the right. *)
Lemma shr_1_m mrs : 0 <= shr_m mrs → shr_m (shr_1 mrs) = shr_m mrs / 2.
Proof.
  destruct mrs as [m r s]. simpl. intros Hm.
  destruct m as [|[p|p|]|p]; simpl; try lia; try reflexivity.
  - rewrite Pos2Z.inj_xI. apply Z.div_unique with 1; lia.
  - rewrite Pos2Z.inj_xO. apply Z.div_unique with 0; lia.
Qed.

Lemma iter_pos_shr_1_m p mrs :
  0 <= shr_m mrs →
  shr_m (SpecFloat.iter_pos shr_1 p mrs) = shr_m mrs / 2 ^ Zpos p.
Proof.
  revert mrs. induction p as [p IH|p IH|]; intros mrs Hm; simpl SpecFloat.iter_pos.
  - assert (0 <= shr_m (shr_1 mrs)) by (rewrite shr_1_m by lia; apply Z.div_pos; lia).
    assert (0 <= shr_m (SpecFloat.iter_pos shr_1 p (shr_1 mrs)))
      by (rewrite IH by lia; apply Z.div_pos; lia).
    rewrite !IH, shr_1_m by lia.
    rewrite !Z.div_div by lia. f_equal.
    replace (Zpos p~1) with (1 + Zpos p + Zpos p) by lia.
    rewrite !Z.pow_add_r, Z.pow_1_r by lia. lia.
  - assert (0 <= shr_m (SpecFloat.iter_pos shr_1 p mrs))
      by (rewrite IH by lia; apply Z.div_pos; lia).
    rewrite !IH by lia.
    rewrite !Z.div_div by lia. f_equal.
    replace (Zpos p~0) with (Zpos p + Zpos p) by lia.
    rewrite !Z.pow_add_r by lia. lia.
  - rewrite shr_1_m by lia. reflexivity.
Qed.

Lemma shr_m_record_of_loc m l : shr_m (shr_record_of_loc m l) = m.
Proof. by destruct l as [|[]]. Qed.

Lemma shr_spec mrs e n :
  0 <= shr_m mrs →
  shr_m (shr mrs e n).1 = shr_m mrs / 2 ^ Z.max n 0
  ∧ (shr mrs e n).2 = e + Z.max n 0.
Proof.
  intros Hm. destruct n as [|p|p]; cbn [shr fst snd].
  - rewrite Z.max_id, Z.pow_0_r, Z.div_1_r. lia.
  - rewrite Z.max_l by lia. rewrite iter_pos_shr_1_m by done. lia.
  - rewrite Z.max_r by lia. rewrite Z.pow_0_r, Z.div_1_r. lia.
Qed.

Section Rounding.
Context (prec emax : Z) (Hprec : 0 < prec).

Lemma shr_fexp_pos p e l :
  SpecFloat.emin prec emax <= e →
  0 < shr_m (shr_fexp prec emax (Zpos p) e l).1
  ∧ SpecFloat.emin prec emax <= (shr_fexp prec emax (Zpos p) e l).2.
Proof using Hprec.
  intros He. unfold shr_fexp.
  set (n := SpecFloat.fexp prec emax (Zdigits2 (Z.pos p) + e) - e).
  destruct (shr_spec (shr_record_of_loc (Zpos p) l) e n) as [-> ->].
  { rewrite shr_m_record_of_loc. lia. }
  rewrite shr_m_record_of_loc. split; [|lia].
  apply Z.div_str_pos. split; [lia|].
  destruct (Z.max_spec n 0) as [[_ ->]|[Hn ->]]; [simpl; lia|].
  apply Z.le_trans with (2 ^ (Zpos (digits2_pos p) - 1));
    [|apply digits2_pos_bounds].
  apply Z.pow_le_mono_r; [lia|].
  unfold n, SpecFloat.fexp, SpecFloat.emin in *. simpl Zdigits2 in *. lia.
Qed.

Lemma round_nearest_even_ge m l : m <= round_nearest_even m l.
Proof. destruct l as [|[]]; simpl; try lia. destruct (Z.even m); lia. Qed.

Lemma binary_round_aux_pos s p e l :
  SpecFloat.emin prec emax <= e →
  (∃ m' e', binary_round_aux prec emax s (Zpos p) e l = S754_finite s m' e')
  ∨ binary_round_aux prec emax s (Zpos p) e l = S754_infinity s.
Proof using Hprec.
  intros He. unfold binary_round_aux.
  destruct (shr_fexp_pos p e l He) as [Hm1 He1].
  destruct (shr_fexp prec emax (Z.pos p) e l) as [mrs1 e1]. simpl in Hm1, He1.
  pose proof (round_nearest_even_ge (shr_m mrs1) (loc_of_shr_record mrs1)) as Hr.
  destruct (round_nearest_even (shr_m mrs1) (loc_of_shr_record mrs1))
    as [|q|q]; try lia.
  destruct (shr_fexp_pos q e1 loc_Exact He1) as [Hm2 _].
  destruct (shr_fexp prec emax (Z.pos q) e1 loc_Exact) as [mrs2 e2].
  simpl in Hm2. destruct (shr_m mrs2) as [|m2|m2]; try lia.
  destruct (e2 <=? emax - prec); eauto.
Qed.

End Rounding.

(** *** The binary64 format *)

Lemma valid_finite s m e :
  valid_binary (S754_finite s m e) = true →
  -1074 <= e <= 971 ∧ Zpos (digits2_pos m) <= 53
  ∧ (Zpos (digits2_pos m) < 53 → e = -1074).
Proof.
  unfold valid_binary, bounded, canonical_mantissa, SpecFloat.fexp,
    SpecFloat.emin, prec, emax.
  intros [Hc He]%andb_prop. apply Z.eqb_eq in Hc. apply Z.leb_le in He. lia.
Qed.

Lemma iter_xO_spec m d : Zpos (Pos.iter xO m d) = Zpos m * 2 ^ Zpos d.
Proof.
  induction d as [|d IH] using Pos.peano_ind.
  - simpl. lia.
  - rewrite Pos.iter_succ, Pos2Z.inj_succ, Z.pow_succ_r by lia.
    rewrite Pos2Z.inj_xO, IH. lia.
Qed.

Lemma shl_align_spec mx ex ex' :
  Zpos (shl_align mx ex ex').1 = Zpos mx * 2 ^ Z.max (ex - ex') 0
  ∧ (shl_align mx ex ex').2 = Z.min ex ex'.
Proof.
  unfold shl_align. destruct (ex' - ex) as [|d|d] eqn:Hd; simpl fst; simpl snd.
  - replace (Z.max (ex - ex') 0) with 0 by lia. lia.
  - replace (Z.max (ex - ex') 0) with 0 by lia. lia.
  - replace (Z.max (ex - ex') 0) with (Zpos d) by lia. split; [|lia].
    apply iter_xO_spec.
Qed.

Definition negative (x : spec_float) : Prop :=
  match x with
  | S754_finite true _ _ | S754_infinity true => True
  | _ => False
  end.

Lemma binary_round_aux_negative p e l :
  -1074 <= e → negative (binary_round_aux prec emax true (Zpos p) e l).
Proof.
  intros He.
  destruct (binary_round_aux_pos prec emax eq_refl true p e l) as [(m' & e' & ->)| ->];
    done.
Qed.

Lemma binary_round_negative p e :
  -1074 <= e → negative (binary_round prec emax true p e).
Proof.
  intros He. unfold binary_round.
  destruct (shl_align_spec p e (SpecFloat.fexp prec emax (Zpos (digits2_pos p) + e)))
    as [_ He'].
  destruct (shl_align _ _ _) as [mz ez]. simpl in He'.
  apply binary_round_aux_negative. subst ez.
  unfold SpecFloat.fexp, SpecFloat.emin, prec, emax. lia.
Qed.

Definition c01 : spec_float := S754_finite false 7205759403792794 (-56).
Definition c03 : spec_float := S754_finite false 5404319552844596 (-54).


Lemma c01_eq : Prim2SF 0.1 = c01.
Proof. by vm_compute. Qed.

Lemma c03_eq : Prim2SF (0.4 - 0.1) = c03.
Proof. by vm_compute. Qed.

Lemma SFsub_below x m0 e0 :
  valid_binary x = true →
  Zpos (digits2_pos m0) = 53 → -1074 <= e0 →
  SFltb x (S754_finite false m0 e0) = true →
  negative (SF64sub x (S754_finite false m0 e0)).
Proof.
  intros Hv Hd0 He0 Hlt. destruct x as [s|s| |s m e].
  - by destruct s.
  - by destruct s.
  - done.
  - apply valid_finite in Hv as (He & Hd & _).
    unfold SF64sub, SFsub.
    set (ez := Z.min e e0).
    destruct (shl_align_spec m e ez) as [-> _].
    destruct (shl_align_spec m0 e0 ez) as [-> _].
    set (D := cond_Zopp s _ - _).
    assert (D < 0) as HD.
    { unfold D, cond_Zopp.
      assert (0 < 2 ^ Z.max (e - ez) 0) by (apply Z.pow_pos_nonneg; lia).
      assert (0 < 2 ^ Z.max (e0 - ez) 0) by (apply Z.pow_pos_nonneg; lia).
      destruct s; [nia|].
      unfold SFltb, SFcompare in Hlt.
      pose proof (digits2_pos_bounds m) as [_ Hm].
      pose proof (digits2_pos_bounds m0) as [Hm0 _]. rewrite Hd0 in Hm0.
      assert (Zpos m < 2 ^ 53).
      { eapply Z.lt_le_trans; [exact Hm|]. apply Z.pow_le_mono_r; lia. }
      destruct (Z.compare_spec e e0) as [->|Hlt'|Hgt]; try done.
      - change (Pos.compare_cont Eq) with Pos.compare in Hlt.
        destruct (Pos.compare_spec m m0); try done.
        unfold ez. rewrite Z.min_id, Z.sub_diag. simpl (Z.max 0 0).
        rewrite Z.pow_0_r. lia.
      - unfold ez. rewrite Z.min_l by lia.
        rewrite Z.sub_diag. simpl (Z.max 0 0). rewrite Z.pow_0_r.
        rewrite Z.max_l by lia.
        assert (2 ^ 1 <= 2 ^ (e0 - e)) by (apply Z.pow_le_mono_r; lia).
        change (2 ^ (53 - 1)) with (2 ^ 52) in Hm0.
        change (2 ^ 53) with (2 * 2 ^ 52) in H1. change (2 ^ 1) with 2 in H2.
        nia. }
    destruct D as [|p|p]; [lia|lia|].
    apply binary_round_negative. unfold ez. lia.
Qed.

Lemma SFdiv_negative d mc ec :
  valid_binary d = true → negative d →
  Zpos (digits2_pos mc) = 53 → ec <= -53 →
  negative (SF64div d (S754_finite false mc ec)).
Proof.
  intros Hv Hneg Hdc Hec. destruct d as [s|s| |s md ed]; try done.
  { by destruct s. }
  destruct s; [|done]. clear Hneg.
  apply valid_finite in Hv as (He & Hd & _).
  unfold SF64div, SFdiv, SFdiv_core_binary.
  simpl Zdigits2. rewrite Hdc.
  set (d1 := Zpos (digits2_pos md)) in *.
  assert (1 <= d1) by (unfold d1; lia).
  set (e' := Z.min _ _).
  assert (-1074 <= e' <= ed - ec) as He'.
  { unfold e', SpecFloat.fexp, SpecFloat.emin, prec, emax. lia. }
  assert (53 <= d1 - 1 + (ed - ec - e')) as Hs.
  { unfold e', SpecFloat.fexp, SpecFloat.emin, prec, emax. lia. }
  set (s := ed - ec - e') in *.
  set (m' := match s with Z.pos _ => _ | Z0 => _ | Z.neg _ => _ end).
  assert (m' = Zpos md * 2 ^ s) as Hm'.
  { unfold m'. destruct s as [|p|p] eqn:Hsp; [lia| |lia].
    apply Z.shiftl_mul_pow2. lia. }
  pose proof (digits2_pos_bounds md) as [Hmd _]. fold d1 in Hmd.
  pose proof (digits2_pos_bounds mc) as [_ Hmc]. rewrite Hdc in Hmc.
  assert (2 ^ 53 <= m') as Hbig.
  { rewrite Hm'. apply Z.le_trans with (2 ^ (d1 - 1) * 2 ^ s).
    - rewrite <- Z.pow_add_r by lia. apply Z.pow_le_mono_r; lia.
    - apply Z.mul_le_mono_nonneg_r; [apply Z.pow_nonneg|]; lia. }
  pose proof (Z.div_eucl_eq m' (Zpos mc)) as Heq.
  pose proof (Z.mod_pos_bound m' (Zpos mc)) as Hmod.
  unfold Z.modulo in Hmod.
  destruct (Z.div_eucl m' (Z.pos mc)) as [q r].
  assert (0 < q) as Hq by nia.
  destruct q as [|q|q]; [lia| |lia].
  simpl xorb. apply binary_round_aux_negative. lia.
Qed.

(** Every margin below 0.1 is normalized to a negative value. *)
Lemma normalized_margin_below (x : float) :
  (x <? 0.1)%float = true → (normalized_margin x <? 0)%float = true.
Proof.
  unfold normalized_margin.
  rewrite !FloatAxioms.ltb_spec, div_spec, c03_eq, c01_eq.
  intros Hlt. 
  assert (negative (Prim2SF (x - 0.1)%float)) as Hneg.
  { rewrite sub_spec, c01_eq. apply SFsub_below; try done. apply Prim2SF_valid. }
  assert (negative (SF64div (Prim2SF (x - 0.1)%float) c03)) as Hq.
  { apply SFdiv_negative; try done. apply Prim2SF_valid. }
  destruct (SF64div _ _) as [| [] | | [] ]; done.
Qed.

(** ** Lower bound on the rounded value *)

Lemma Zdigits2_log2 z : 0 < z → Zdigits2 z = Z.log2 z + 1.
Proof. destruct z as [|p|p]; try lia. intros _. apply digits2_pos_log2. Qed.

Lemma log2_div_pow2 z n :
  0 < z → 0 <= n → n <= Z.log2 z → Z.log2 (z / 2 ^ n) = Z.log2 z - n.
Proof.
  intros Hz Hn Hle. rewrite <- Z.shiftr_div_pow2 by lia.
  rewrite Z.log2_shiftr by lia. lia.
Qed.

Lemma log2_succ_pow2 z :
  0 < z → Z.log2 (z + 1) ≠ Z.log2 z →
  z + 1 = 2 ^ (Z.log2 z + 1) ∧ Z.log2 (z + 1) = Z.log2 z + 1.
Proof.
  intros Hz Hne.
  destruct (Z.log2_succ_or z) as [Hs|Hs]; [|unfold Z.succ in *; lia].
  unfold Z.succ in *. split; [|lia].
  destruct (Z.log2_eq_succ_is_pow2 z Hs) as [b Hb]; unfold Z.succ in *.
  assert (0 <= b).
  { destruct (Z.le_gt_cases 0 b); [done|]. rewrite Z.pow_neg_r in Hb; lia. }
  rewrite Hb in Hs. rewrite Z.log2_pow2 in Hs by lia. rewrite Hb. f_equal. lia.
Qed.

Definition fexp64 (z : Z) : Z := Z.max (z - 53) (-1074).

Lemma fexp64_eq z : SpecFloat.fexp prec emax z = fexp64 z.
Proof. reflexivity. Qed.

Lemma round_nearest_even_le m l : round_nearest_even m l <= m + 1.
Proof. destruct l as [|[]]; simpl; try lia. destruct (Z.even m); lia. Qed.

Lemma shr_fexp_spec p e l :
  let n := Z.max (fexp64 (Z.log2 (Zpos p) + 1 + e) - e) 0 in
  shr_m (shr_fexp prec emax (Zpos p) e l).1 = Zpos p / 2 ^ n
  ∧ (shr_fexp prec emax (Zpos p) e l).2 = e + n.
Proof.
  intros n. unfold shr_fexp.
  rewrite fexp64_eq, Zdigits2_log2 by lia. fold n.
  destruct (shr_spec (shr_record_of_loc (Zpos p) l) e
              (fexp64 (Z.log2 (Zpos p) + 1 + e) - e)) as [H1 H2].
  { rewrite shr_m_record_of_loc. lia. }
  rewrite shr_m_record_of_loc in H1. by rewrite H1, H2.
Qed.

Lemma binary_round_aux_lower p e l :
  -1074 <= e →
  let n := Z.max (fexp64 (Z.log2 (Zpos p) + 1 + e) - e) 0 in
  binary_round_aux prec emax false (Zpos p) e l = S754_infinity false
  ∨ ∃ m2 e2,
      binary_round_aux prec emax false (Zpos p) e l = S754_finite false m2 e2
      ∧ e + n <= e2
      ∧ Zpos p / 2 ^ n <= Zpos m2 * 2 ^ (e2 - (e + n)).
Proof.
  intros He n. unfold binary_round_aux.
  destruct (shr_fexp_spec p e l) as [Hm1 He1]. fold n in Hm1, He1.
  destruct (shr_fexp_pos prec emax eq_refl p e l He) as [Hpos1 Hmin1].
  destruct (shr_fexp prec emax (Z.pos p) e l) as [mrs1 e1].
  cbn [fst snd] in Hm1, He1, Hpos1, Hmin1.
  set (m1 := shr_m mrs1) in *.
  pose proof (round_nearest_even_ge m1 (loc_of_shr_record mrs1)) as Hge.
  pose proof (round_nearest_even_le m1 (loc_of_shr_record mrs1)) as Hle.
  destruct (round_nearest_even m1 (loc_of_shr_record mrs1)) as [|q|q]; try lia.
  destruct (shr_fexp_spec q e1 loc_Exact) as [Hm2 He2].
  destruct (shr_fexp_pos prec emax eq_refl q e1 loc_Exact Hmin1) as [Hpos2 _].
  destruct (shr_fexp prec emax (Z.pos q) e1 loc_Exact) as [mrs2 e2].
  cbn [fst snd] in Hm2, He2, Hpos2.
  set (n2 := Z.max (fexp64 (Z.log2 (Z.pos q) + 1 + e1) - e1) 0) in *.
  destruct (shr_m mrs2) as [|m2|m2] eqn:Hmrs2; try lia.
  destruct (e2 <=? emax - prec); [|by left].
  assert (0 <= n) as Hn0 by (unfold n; lia).
  assert (0 <= n2) as Hn20 by (unfold n2; lia).
  right. exists m2, e2. split; [done|]. split; [lia|].
  rewrite <- Hm1. replace (e2 - (e + n)) with n2 by lia.
  (* the exponent after the first shift is at least the one of the format *)
  assert (fexp64 (Z.log2 m1 + 1 + e1) <= e1) as Hfit.
  { destruct (Z.max_spec (fexp64 (Z.log2 (Zpos p) + 1 + e) - e) 0)
      as [[Hn Hn']|[Hn Hn']]; fold n in Hn'.
    - rewrite Hn' in Hm1, He1. rewrite Z.pow_0_r, Z.div_1_r in Hm1.
      rewrite Hm1, He1, Z.add_0_r. lia.
    - pose proof (Z.log2_nonneg (Zpos p)).
      assert (n <= Z.log2 (Zpos p)) by (unfold fexp64 in *; lia).
      rewrite Hm1, log2_div_pow2 by lia.
      replace (Z.log2 (Zpos p) - n + 1 + e1) with (Z.log2 (Zpos p) + 1 + e) by lia.
      lia. }
  destruct (Z.eq_dec n2 0) as [Hn2|Hn2].
  { rewrite Hn2 in *. rewrite Z.pow_0_r, Z.div_1_r in Hm2. lia. }
  assert (Z.log2 (Zpos q) ≠ Z.log2 m1) as Hlog.
  { intros Heq. unfold n2 in Hn2. rewrite Heq in Hn2. lia. }
  assert (Zpos q = m1 + 1) as Hq.
  { destruct (Z.eq_dec (Zpos q) m1) as [Heq|]; [|lia]. by rewrite Heq in Hlog. }
  rewrite Hq in Hlog.
  destruct (log2_succ_pow2 m1 Hpos1 Hlog) as [Hpow Hlog'].
  assert (n2 = 1) as ->.
  { unfold n2 in *. rewrite Hq, Hlog' in Hn2 |- *. unfold fexp64 in *. lia. }
  rewrite Hq, Hpow in Hm2.
  replace (Z.log2 m1 + 1) with (Z.succ (Z.log2 m1)) in Hm2 by lia.
  rewrite Z.pow_succ_r in Hm2 by apply Z.log2_nonneg.
  rewrite Z.pow_1_r, Z.mul_comm, Z.div_mul in Hm2 by lia.
  rewrite Z.pow_1_r.
  replace (Z.log2 m1 + 1) with (Z.succ (Z.log2 m1)) in Hpow by lia.
  rewrite Z.pow_succ_r in Hpow by apply Z.log2_nonneg. lia.
Qed.

(** Comparing a canonical float with a normal one through their values,
    scaled by [2^1074] to stay in the integers. *)
Lemma value_lt_SFltb mK eK m e :
  2 ^ 52 <= Zpos mK → -1074 <= eK →
  valid_binary (S754_finite false m e) = true →
  Zpos mK * 2 ^ (eK + 1074) < Zpos m * 2 ^ (e + 1074) →
  SFltb (S754_finite false mK eK) (S754_finite false m e) = true.
Proof.
  intros HmK HeK (He & Hd & _)%valid_finite Hlt.
  unfold SFltb, SFcompare.
  change (Pos.compare_cont Eq) with Pos.compare.
  destruct (Z.compare_spec eK e) as [->|Hlt'|Hgt]; [|done|exfalso].
  - destruct (Pos.compare_spec mK m) as [->|?|?]; [lia|done|].
    assert (0 < 2 ^ (e + 1074)) by (apply Z.pow_pos_nonneg; lia). nia.
  - pose proof (digits2_pos_bounds m) as [_ Hm].
    assert (Zpos m < 2 ^ 53).
    { eapply Z.lt_le_trans; [exact Hm|]. apply Z.pow_le_mono_r; lia. }
    assert (2 * 2 ^ (e + 1074) <= 2 ^ (eK + 1074)).
    { rewrite <- Z.pow_succ_r by lia. apply Z.pow_le_mono_r; lia. }
    assert (0 < 2 ^ (e + 1074)) by (apply Z.pow_pos_nonneg; lia).
    change (2 ^ 53) with (2 * 2 ^ 52) in *. nia.
Qed.

Section Above.
(** [m0] is the mantissa of 0.1 (at exponent -56) and of 0.4 (at exponent
    -54). *)
Context (m0 : positive).
Context (H0lo : 2 ^ 52 <= Zpos m0) (H0hi : Zpos m0 + 2 <= 2 ^ 53).
Context (H0big : 2 ^ 54 <= 3 * Zpos m0 + 8).
Context (H0mod : (3 * Zpos m0 + 6) mod 4 = 0).

Lemma SFsub_above x :
  valid_binary x = true →
  SFltb (S754_finite false (m0 + 1) (-54)) x = true →
  SF64sub x (S754_finite false m0 (-56)) = S754_infinity false
  ∨ ∃ m e, SF64sub x (S754_finite false m0 (-56)) = S754_finite false m e
      ∧ -54 <= e
      ∧ 3 * Zpos m0 + 6 <= 4 * (Zpos m * 2 ^ (e + 54)).
Proof using H0lo H0hi H0big H0mod.
  intros Hv Hlt. destruct x as [s|s| |s m e].
  - by destruct s.
  - destruct s; [done|]. by left.
  - done.
  - destruct s; [done|].
    apply valid_finite in Hv as (He & Hd & Hsub).
    unfold SFltb, SFcompare in Hlt.
    change (Pos.compare_cont Eq) with Pos.compare in Hlt.
    assert (-54 <= e ∧ (e = -54 → Zpos m0 + 2 <= Zpos m)) as [He54 Hm54].
    { destruct (Z.compare_spec (-54) e) as [<-|?|?]; [|lia|done].
      destruct (Pos.compare_spec (m0 + 1) m); try done. lia. }
    clear Hlt.
    assert (2 ^ 52 <= Zpos m) as Hm.
    { pose proof (digits2_pos_bounds m) as [Hm _].
      assert (Zpos (digits2_pos m) = 53) as Hd53 by lia.
      by rewrite Hd53 in Hm. }
    unfold SF64sub, SFsub.
    replace (Z.min e (-56)) with (-56) by lia.
    destruct (shl_align_spec m e (-56)) as [-> _].
    destruct (shl_align_spec m0 (-56) (-56)) as [-> _].
    rewrite Z.sub_diag. simpl (Z.max 0 0). rewrite Z.pow_0_r, Z.mul_1_r.
    rewrite Z.max_l by lia. unfold cond_Zopp.
    set (D := Zpos m * 2 ^ (e - -56) - Zpos m0).
    assert (3 * Zpos m0 + 8 <= D) as HD.
    { unfold D. destruct (Z.eq_dec e (-54)) as [->|].
      - change (2 ^ (-54 - -56)) with 4. lia.
      - assert (2 ^ 3 <= 2 ^ (e - -56)) by (apply Z.pow_le_mono_r; lia).
        change (2 ^ 3) with 8 in *. change (2 ^ 53) with (2 * 2 ^ 52) in *. nia. }
    destruct D as [|p|p] eqn:HDp; [lia| |lia].
    unfold binary_normalize, binary_round.
    assert (54 <= Z.log2 (Zpos p)) as Hlog.
    { apply Z.log2_le_pow2; lia. }
    destruct (shl_align_spec p (-56)
                (SpecFloat.fexp prec emax (Zpos (digits2_pos p) + -56)))
      as [Hmz Hez].
    destruct (shl_align _ _ _) as [mz ez]. cbn [fst snd] in Hmz, Hez.
    rewrite fexp64_eq, digits2_pos_log2 in Hmz, Hez. unfold fexp64 in Hmz, Hez.
    rewrite Z.max_r, Z.pow_0_r, Z.mul_1_r in Hmz by lia.
    rewrite Z.min_l in Hez by lia. injection Hmz as ->. subst ez.
    destruct (binary_round_aux_lower p (-56) loc_Exact)
      as [Hinf|(m2 & e2 & -> & He2 & Hval)]; [lia|by left|].
    right. exists m2, e2. split; [done|].
    set (n := Z.max (fexp64 (Z.log2 (Zpos p) + 1 + -56) - -56) 0) in *.
    assert (n = Z.log2 (Zpos p) - 52) as Hn by (unfold n, fexp64; lia).
    split; [lia|].
    assert (Zpos m2 * 2 ^ (e2 + 54)
            = Zpos m2 * 2 ^ (e2 - (-56 + n)) * 2 ^ (n - 2)) as ->.
    { rewrite <- Z.mul_assoc, <- Z.pow_add_r by lia. do 2 f_equal. lia. }
    destruct (Z.eq_dec n 2) as [Hn2|Hn2].
    + rewrite Hn2 in *. change (2 ^ (2 - 2)) with 1. change (2 ^ 2) with 4 in Hval.
      apply Z.div_exact in H0mod; [|lia].
      assert ((3 * Zpos m0 + 6) / 4 <= Zpos p / 4) by (apply Z.div_le_mono; lia).
      lia.
    + assert (2 ^ 52 <= Zpos p / 2 ^ n) as Hq.
      { apply Z.log2_le_pow2.
        - apply Z.div_str_pos. split; [apply Z.pow_pos_nonneg; lia|].
          apply Z.le_trans with (2 ^ Z.log2 (Zpos p));
            [apply Z.pow_le_mono_r; lia|apply Z.log2_spec; lia].
        - rewrite log2_div_pow2 by lia. lia. }
      assert (2 ^ 1 <= 2 ^ (n - 2)) by (apply Z.pow_le_mono_r; lia).
      change (2 ^ 1) with 2 in *. change (2 ^ 53) with (2 * 2 ^ 52) in *. nia.
Qed.

End Above.

Section Quotient.
(** [mc] is the mantissa of the divisor [0.4 - 0.1] (at exponent -54) and
    [m1] the one of 1.0 (at exponent -52). *)
Context (mc m1 : positive).
Context (Hclo : 2 ^ 52 <= Zpos mc) (Hchi : Zpos mc + 2 <= 2 ^ 53).
Context (Hm1 : Zpos m1 = 2 ^ 52).

Lemma SFdiv_above md ed :
  valid_binary (S754_finite false md ed) = true →
  -54 <= ed →
  Zpos mc + 2 <= Zpos md * 2 ^ (ed + 54) →
  valid_binary (SF64div (S754_finite false md ed) (S754_finite false mc (-54)))
    = true →
  SFltb (S754_finite false m1 (-52))
    (SF64div (S754_finite false md ed) (S754_finite false mc (-54))) = true.
Proof using Hclo Hchi Hm1.
  intros (He & Hd & Hsub)%valid_finite He54 Hval.
  assert (Zpos (digits2_pos md) = 53) as Hd53 by lia.
  assert (Zpos (digits2_pos mc) = 53) as Hdc.
  { rewrite digits2_pos_log2. 
    assert (Z.log2 (Zpos mc) = 52); [|lia].
    apply Z.log2_unique; [lia|]. change (2 ^ Z.succ 52) with (2 ^ 53). lia. }
  pose proof (digits2_pos_bounds md) as [Hmdlo Hmdhi]. rewrite Hd53 in Hmdlo, Hmdhi.
  change (2 ^ (53 - 1)) with (2 ^ 52) in Hmdlo.
  unfold SF64div, SFdiv, SFdiv_core_binary. simpl Zdigits2.
  rewrite Hd53, Hdc, fexp64_eq.
  replace (Z.min (fexp64 (53 + ed - (53 + -54))) (ed - -54)) with (ed + 1)
    by (unfold fexp64; lia).
  replace (ed - -54 - (ed + 1)) with 53 by lia.
  rewrite Z.shiftl_mul_pow2 by lia.
  set (P := 2 ^ 52) in *.
  assert (0 < P) as HP by (unfold P; lia).
  change (2 ^ 53) with (2 * P) in *.
  pose proof (Z.div_eucl_eq (Zpos md * (2 * P)) (Zpos mc)) as Heq.
  pose proof (Z.mod_pos_bound (Zpos md * (2 * P)) (Zpos mc)) as Hmod.
  unfold Z.modulo in Hmod.
  destruct (Z.div_eucl (Zpos md * (2 * P)) (Zpos mc)) as [q r].
  specialize (Heq ltac:(lia)). specialize (Hmod ltac:(lia)).
  assert (P + 1 <= q) as Hqlo by nia.
  assert (q < 4 * P) as Hqhi by nia.
  destruct q as [|q|q]; [lia| |lia].
  simpl xorb. intros Hvalid.
  destruct (binary_round_aux_lower q (ed + 1) (new_location (Zpos mc) r))
    as [Hinf|(m2 & e2 & Hr & He2 & Hlow)]; [lia|by rewrite Hinf|].
  rewrite Hr in Hvalid |- *.
  apply value_lt_SFltb; [fold P; lia|lia|done|].
  rewrite Hm1. fold P.
  set (n := Z.max (fexp64 (Z.log2 (Zpos q) + 1 + (ed + 1)) - (ed + 1)) 0) in *.
  assert (52 <= Z.log2 (Zpos q) <= 53) as Hlog.
  { split.
    - apply Z.log2_le_pow2; [lia|]. fold P. lia.
    - assert (Z.log2 (Zpos q) < 54); [|lia].
      apply Z.log2_lt_pow2; [lia|]. change (2 ^ 54) with (4 * P). lia. }
  assert (n = Z.log2 (Zpos q) - 52) as Hn by (unfold n, fexp64; lia).
  assert (Zpos m2 * 2 ^ (e2 + 1074)
          = Zpos m2 * 2 ^ (e2 - (ed + 1 + n)) * 2 ^ (ed + 1 + n + 1074)) as ->.
  { rewrite <- Z.mul_assoc, <- Z.pow_add_r by lia. do 2 f_equal. lia. }
  set (V := Zpos m2 * 2 ^ (e2 - (ed + 1 + n))) in *.
  change (-52 + 1074) with 1022.
  destruct (Z.eq_dec (Z.log2 (Zpos q)) 52) as [H52|H52].
  - assert (n = 0) as Hn0 by lia. rewrite Hn0 in *.
    rewrite Z.pow_0_r, Z.div_1_r in Hlow.
    assert (ed ≠ -54) as Hne.
    { intros ->. change (2 ^ (-54 + 54)) with 1 in Hval.
      assert (2 * P <= Zpos q) by nia.
      assert (53 <= Z.log2 (Zpos q)); [|lia].
      apply Z.log2_le_pow2; [lia|]. change (2 ^ 53) with (2 * P). lia. }
    assert (2 ^ 1022 <= 2 ^ (ed + 1 + 0 + 1074)) by (apply Z.pow_le_mono_r; lia).
    assert (0 < 2 ^ 1022) by (apply Z.pow_pos_nonneg; lia).
    nia.
  - assert (n = 1) as Hn1 by lia. rewrite Hn1 in *.
    rewrite Z.pow_1_r in Hlow.
    assert (2 * P <= Zpos q) as Hq2.
    { change (2 * P) with (2 ^ 53). apply Z.log2_le_pow2; lia. }
    assert (0 < 2 ^ 1022) by (apply Z.pow_pos_nonneg; lia).
    destruct (Z.eq_dec ed (-54)) as [->|Hne].
    + change (2 ^ (-54 + 54)) with 1 in Hval.
      change (-54 + 1 + 1 + 1074) with 1022.
      assert (2 * P + 2 <= Zpos q) by nia.
      assert (P + 1 <= Zpos q / 2) by (apply Z.div_le_lower_bound; lia).
      nia.
    + assert (P <= Zpos q / 2) by (apply Z.div_le_lower_bound; lia).
      assert (2 * 2 ^ 1022 <= 2 ^ (ed + 1 + 1 + 1074)).
      { rewrite <- Z.pow_succ_r by lia. apply Z.pow_le_mono_r; lia. }
      nia.
Qed.

End Quotient.

(** Every margin above 0.4000000000000001, the successor of 0.4, is
    normalized to a value above 1. *)
Lemma normalized_margin_above (x : float) :
  (0.4000000000000001 <? x)%float = true →
  (1 <? normalized_margin x)%float = true.
Proof.
  unfold normalized_margin.
  rewrite !FloatAxioms.ltb_spec.
  change (Prim2SF 0.4000000000000001)
    with (S754_finite false (7205759403792794 + 1) (-54)).
  change (Prim2SF 1) with (S754_finite false 4503599627370496 (-52)).
  intros Hlt.
  pose proof (Prim2SF_valid (x - 0.1)%float) as Hvd.
  pose proof (Prim2SF_valid ((x - 0.1) / (0.4 - 0.1))%float) as Hvq.
  rewrite div_spec in Hvq |- *. rewrite c03_eq in Hvq |- *.
  rewrite sub_spec, c01_eq in Hvd, Hvq |- *. unfold c01, c03 in *.
  destruct (SFsub_above 7205759403792794) with (x := Prim2SF x)
    as [Hinf|(md & ed & Hd & He & Hval)];
    [by vm_compute..|apply Prim2SF_valid|done| |].
  - by rewrite Hinf.
  - rewrite Hd in Hvd, Hvq |- *.
    assert (5404319552844596 + 1 <= Zpos md * 2 ^ (ed + 54)) as Hval'.
    { apply Z.mul_le_mono_pos_l with 4; [done|].
      etransitivity; [|exact Hval]. by vm_compute. }
    clear Hval.
    destruct (Z.eq_dec (Zpos md * 2 ^ (ed + 54)) (5404319552844596 + 1))
      as [Heq|Hne].
    + assert (ed = -54) as ->.
      { destruct (Z.eq_dec ed (-54)) as [|Hed]; [done|exfalso].
        apply valid_finite in Hvd as (_ & Hdg & Hsub).
        pose proof (digits2_pos_bounds md) as [Hlo _].
        assert (Zpos (digits2_pos md) = 53) as Hd53 by lia.
        rewrite Hd53 in Hlo. change (2 ^ (53 - 1)) with (2 ^ 52) in Hlo.
        assert (2 ^ 1 <= 2 ^ (ed + 54)) by (apply Z.pow_le_mono_r; lia).
        assert (2 ^ 52 * 2 ^ 1 <= Zpos md * 2 ^ (ed + 54)) as Hbig.
        { apply Z.mul_le_mono_nonneg; lia. }
        rewrite Heq in Hbig. revert Hbig. by vm_compute. }
      change (2 ^ (-54 + 54)) with 1 in Heq. rewrite Z.mul_1_r in Heq.
      injection Heq as ->. by vm_compute.
    + apply (SFdiv_above 5404319552844596 4503599627370496);
        [by vm_compute..|done|done| |done].
      assert (5404319552844596 + 1 < Zpos md * 2 ^ (ed + 54)); [|lia].
      destruct (Z.le_gt_cases (Zpos md * 2 ^ (ed + 54)) (5404319552844596 + 1));
        [|done].
      exfalso. apply Hne. by apply Z.le_antisymm.
Qed.

(** The margins above 0.4 are 0.4000000000000001, its successor, and those
    above the successor. *)
Lemma above_successor (x : float) :
  (0.4 <? x)%float = true →
  x = 0.4000000000000001%float ∨ (0.4000000000000001 <? x)%float = true.
Proof.
  rewrite !FloatAxioms.ltb_spec.
  change (Prim2SF 0.4) with (S754_finite false 7205759403792794 (-54)).
  change (Prim2SF 0.4000000000000001)
    with (S754_finite false 7205759403792795 (-54)).
  intros Hlt. pose proof (SF2Prim_Prim2SF x) as Hx.
  destruct (Prim2SF x) as [s|s| |s m e]; try done.
  - destruct s; [done|by right].
  - destruct s; [done|].
    unfold SFltb, SFcompare in Hlt |- *.
    change (Pos.compare_cont Eq) with Pos.compare in *.
    destruct (Z.compare_spec (-54) e) as [He|?|?]; [subst e|by right|done].
    destruct (Pos.compare_spec 7205759403792794 m) as [|Hm|]; try done.
    destruct (Pos.eq_dec m 7205759403792795%positive) as [->|Hne].
    + left. rewrite <- Hx. by vm_compute.
    + right.
      assert (7205759403792795 < m)%positive as ->%Pos.compare_lt_iff by lia.
      done.
Qed.

End Binary64.

(** ** The claims of the specification *)

Module Claims.

Import FloatOrder NumPy Python ApiService SortFacts Properties Example.

(** The business score of the specification, for a candidate [c] (its
    model score and product id) and the triple [t] the re-ranker keeps for
    it. *)
Definition scored_by_formula `{Runtime} (g : globals)
    (c : float * string) (t : string * float * float) : Prop :=
  ∃ p_data, product_catalog g !! c.2 = Some p_data ∧
    let normalizedMargin :=
      ((ProfitMargin p_data - 0.1) / (0.4 - 0.1))%float in
    let stockPenalty :=
      if (CurrentStock p_data <? 50)%Z then 1.0%float else 0.0%float in
    t = (c.2,
         np_sub scalar_promotion
           (np_add scalar_promotion
              (np_mul scalar_promotion (W_MODEL g) c.1)
              (W_PROFIT g * normalizedMargin)%float)
           (W_STOCK g * stockPenalty)%float,
         c.1).

(** C1: for every shortlisted candidate the triple appended to
    [final_scores] carries the candidate's product id, its model score and
    the business score
    [W_MODEL*score + W_PROFIT*normalizedMargin - W_STOCK*stockPenalty] with
    [normalizedMargin = (profitMargin - 0.1) / (0.4 - 0.1)] and
    [stockPenalty = 1.0 if currentStock < 50 else 0.0], the margin and the
    stock being those of the candidate's own catalog row; a stock of 49
    gives the penalty 1.0 and a stock of 50 the penalty 0.0. *)
Theorem C1_business_score `{Runtime} g candidate_predictions candidate_pids
    final_scores :
  rerank g candidate_predictions candidate_pids = Returns final_scores →
  Forall2 (scored_by_formula g)
    (zip candidate_predictions candidate_pids) final_scores
  ∧ stock_penalty 49 = 1.0%float ∧ stock_penalty 50 = 0.0%float.
Proof.
  intros Hrun. split; [|done].
  apply mapM_Returns_1 in Hrun.
  eapply Forall2_impl; [exact Hrun|].
  intros [score pid] t. unfold rerank_candidate, dict_get. simpl.
  destruct (product_catalog g !! pid) as [p_data|] eqn:Hp; [|done].
  intros [= <-]. by exists p_data.
Qed.

Lemma C1_business_score_witness :
  ∃ final_scores,
    rerank (H:=reference_runtime legacy) deployment scores
      ["P0000"; "P0001"; "P0002"] = Returns final_scores
    ∧ Forall2 (scored_by_formula (H:=reference_runtime legacy) deployment)
        (zip scores ["P0000"; "P0001"; "P0002"]) final_scores
    ∧ stock_penalty 49 = 1.0%float ∧ stock_penalty 50 = 0.0%float.
Proof.
  eexists. split; [vm_compute; reflexivity|].
  apply (C1_business_score (H:=reference_runtime legacy)). reflexivity.
Defined.

(** The key [final_scores] is sorted by: the business score of a triple. *)
Definition business_score (t : string * float * float) : float := t.1.2.

(** [response_list] is built, in order, from the first [FINAL_LIST_SIZE]
    of the shortlist of some batch, business-scored and then sorted by
    business score, descending and stably. *)
Definition sorted_by_business_score `{Runtime} (g : globals)
    (response_list : list RecommendationResponse) : Prop :=
  ∃ inputs candidate_predictions candidate_pids final_scores,
    select_candidates g (model g inputs)
      = Returns (candidate_predictions, candidate_pids)
    ∧ rerank g candidate_predictions candidate_pids = Returns final_scores
    ∧ response_list
      = imap response_of
          (take (FINAL_LIST_SIZE g) (sort_final_scores final_scores))
    ∧ sort_final_scores final_scores ≡ₚ final_scores
    ∧ (no_nan_key business_score final_scores →
         StronglySorted (descending business_score)
           (sort_final_scores final_scores)
         ∧ ∀ k, filter (tied_with business_score k)
                  (sort_final_scores final_scores)
                = filter (tied_with business_score k) final_scores).

(** In the three-product example the response ranked first has a lower
    model score than the response ranked last. *)
Definition relevance_overruled `{Runtime} : Prop :=
  ∃ first last,
    (get_hybrid_recommendations R001 fresh).1
      = Returns [first; {| product_id := "P0002";
                           predicted_score := np_float32 0.7;
                           final_rank := 2 |}; last]
    ∧ (final_rank first < final_rank last)%Z
    ∧ (predicted_score first <? predicted_score last)%float = true.

(** C2: the responses of a successful request are built, in order, from the
    first [FINAL_LIST_SIZE] of the business-scored shortlist after a stable
    sort by business score, descending: the sorted list is a rearrangement
    of the shortlist and, the business scores being numbers, they never
    increase along it and candidates with equal business scores keep the
    order candidate selection gave them.  The order is not that of the
    model score: in the three-product example the first response has a
    lower model score than the last. *)
Theorem C2_final_order `{Runtime} request w response_list w' :
  get_hybrid_recommendations request w = (Returns response_list, w') →
  sorted_by_business_score (module_globals w) response_list
  ∧ relevance_overruled.
Proof.
  intros Hrun. split.
  - rewrite get_hybrid_recommendations_run in Hrun. cbv zeta in Hrun.
    destruct (retailer_map _ !! _) as [retailer_idx|]; [|done].
    destruct (retailer_profiles _ !! _) as [retailer_data|]; [|done].
    destruct (build_inputs _ _ _) as [inputs|]; [|done].
    destruct (select_candidates _ _) as [[cp cpid]|] eqn:Hsel; [|done].
    destruct (rerank _ _ _) as [fs|] eqn:Hfs; [|done].
    injection Hrun as <- _.
    exists inputs, cp, cpid, fs. repeat split; try done.
    + apply sort_reverse_perm.
    + by apply sort_reverse_sorted.
    + intros k. by apply sort_reverse_stable.
  - eexists _, _. split; [by apply R001_run|]. by vm_compute.
Qed.

Lemma C2_final_order_witness :
  ∃ response_list w',
    get_hybrid_recommendations (H:=reference_runtime nep50) R001 fresh
      = (Returns response_list, w')
    ∧ product_id <$> response_list = ["P0001"; "P0002"; "P0000"]
    ∧ sorted_by_business_score (H:=reference_runtime nep50) deployment
        response_list
    ∧ relevance_overruled (H:=reference_runtime nep50).
Proof.
  eexists _, _. split; [by vm_compute|]. split; [by vm_compute|].
  eapply (C2_final_order (H:=reference_runtime nep50) R001 fresh).
  by vm_compute.
Defined.

(** C3: for a retailer known to the service ([retailer_map] and
    [retailer_profiles]), a catalog that covers the products and a scorer
    that returns one score per product, the request returns exactly
    [min(FINAL_LIST_SIZE, TOP_K_CANDIDATES, number of products)] responses,
    their [final_rank]s are 1, 2, ..., N in order, and each response carries
    as [predicted_score] the score the model gave to its product. *)
Theorem C3_result_size_and_ranks `{Runtime} request w retailer_idx
    retailer_data :
  retailer_map (module_globals w) !! retailer_id request = Some retailer_idx →
  retailer_profiles (module_globals w) !! retailer_id request
    = Some retailer_data →
  catalog_covers (module_globals w) →
  one_score_per_product (module_globals w) →
  ∃ inputs response_list events,
    build_inputs (module_globals w) retailer_idx retailer_data = Returns inputs
    ∧ get_hybrid_recommendations request w
      = (Returns response_list, after w events)
    ∧ length response_list
      = FINAL_LIST_SIZE (module_globals w)
          `min` (TOP_K_CANDIDATES (module_globals w)
                   `min` length (product_map (module_globals w)))
    ∧ final_rank <$> response_list
      = Z.of_nat <$> seq 1 (length response_list)
    ∧ ∀ r, r ∈ response_list →
        ∃ i, (product_map (module_globals w)).*1 !! i = Some (product_id r)
          ∧ model (module_globals w) inputs !! i = Some (predicted_score r).
Proof.
  set (g := module_globals w). intros Hmap Hprofile Hcov Hscores.
  destruct (build_inputs_Returns g retailer_idx retailer_data Hcov)
    as (inputs & Hinputs & Hrows).
  set (predictions := model g inputs).
  assert (length predictions = length (product_map g)) as Hlen.
  { unfold predictions. by rewrite Hscores, Hrows, length_fmap. }
  set (idx := top_indices (TOP_K_CANDIDATES g) predictions).
  destruct (rerank_Returns g predictions idx Hcov) as (fs & Hfs & Hall).
  { intros i Hi%top_indices_lt. lia. }
  exists inputs. eexists _, _. split; [done|].
  split; [|split; [|split]].
  - rewrite get_hybrid_recommendations_run. cbv zeta. fold g.
    rewrite Hmap, Hprofile, Hinputs. fold predictions.
    rewrite (select_candidates_Returns g predictions Hlen). fold idx.
    rewrite Hfs. reflexivity.
  - unfold sort_final_scores.
    rewrite final_output_length, sort_reverse_length.
    rewrite <- (Forall2_length _ _ _ Hall). unfold idx.
    by rewrite top_indices_length, Hlen.
  - apply final_output_ranks.
  - intros r (t & Ht & -> & ->)%final_output_elem_of.
    unfold sort_final_scores in Ht. rewrite sort_reverse_perm in Ht.
    apply list_elem_of_lookup in Ht as [n Ht].
    destruct (Forall2_lookup_r _ _ _ _ _ Hall Ht) as (i & Hi & -> & ->).
    apply list_elem_of_lookup_2, top_indices_lt in Hi.
    exists i. split; apply list_lookup_lookup_total_lt;
      rewrite ?length_fmap; fold predictions; lia.
Qed.

Lemma C3_result_size_and_ranks_witness :
  ∃ inputs response_list events,
    build_inputs deployment 0%Z {| StoreType := 1; LocationTier := 2 |}
      = Returns inputs
    ∧ get_hybrid_recommendations (H:=reference_runtime nep50) R001 fresh
      = (Returns response_list, after fresh events)
    ∧ length response_list = 10 `min` (500 `min` 3)
    ∧ final_rank <$> response_list
      = Z.of_nat <$> seq 1 (length response_list)
    ∧ ∀ r, r ∈ response_list →
        ∃ i, ["P0000"; "P0001"; "P0002"] !! i = Some (product_id r)
          ∧ model deployment inputs !! i = Some (predicted_score r).
Proof.
  apply (C3_result_size_and_ranks (H:=reference_runtime nep50) R001 fresh).
  - reflexivity.
  - reflexivity.
  - intros pid Hpid. cbn in Hpid.
    repeat (apply elem_of_cons in Hpid as [->|Hpid]; [by split; eexists|]).
    by apply elem_of_nil in Hpid.
  - intros x. apply length_imap.
Defined.

(** C4: candidate selection [np.argsort(predictions)[::-1][:k]] returns
    [min(k, number of scores)] distinct positions of the scored products,
    in descending order of score, and every selected product's score is at
    least every unselected product's score; with [k] at least the number of
    products it returns all of them, in descending order of score.  The
    order is NumPy's: [<=] on numbers (a NaN, should the model emit one,
    counts as the largest). *)
Theorem C4_candidate_selection `{Runtime} (k : nat) (predictions : list float) :
  let selected := top_indices k predictions in
  length selected = k `min` length predictions
  ∧ NoDup selected
  ∧ (∀ i, i ∈ selected → i < length predictions)
  ∧ StronglySorted (outranks predictions) selected
  ∧ (∀ i j, i ∈ selected → j < length predictions → j ∉ selected →
       outranks predictions i j)
  ∧ (length predictions ≤ k → selected ≡ₚ seq 0 (length predictions))
  ∧ (∀ i j, is_nan (predictions !!! i) = false →
       is_nan (predictions !!! j) = false →
       outranks predictions i j
       ↔ (predictions !!! j <=? predictions !!! i)%float = true).
Proof.
  repeat split.
  - apply top_indices_length.
  - apply top_indices_NoDup.
  - apply top_indices_lt.
  - apply top_indices_sorted.
  - apply top_indices_dominate.
  - apply top_indices_all.
  - unfold outranks. by rewrite np_le_leb.
  - unfold outranks. by rewrite np_le_leb.
Qed.

(** Margin normalization as the specification describes it: exact at the
    three reference margins, and taking every margin outside [0.1, 0.4] to a
    value outside [0, 1]. *)
Definition margin_normalization_as_specified : Prop :=
  normalized_margin 0.1 = 0.0%float
  ∧ normalized_margin 0.4 = 1.0%float
  ∧ normalized_margin 0.25 = 0.5%float
  ∧ ∀ x, (x <? 0.1)%float = true ∨ (0.4 <? x)%float = true →
      (normalized_margin x <? 0)%float = true
      ∨ (1 <? normalized_margin x)%float = true.

(** The specified normalization is not what binary64 arithmetic computes:
    [0.4 - 0.1] is rounded up to 0.30000000000000004, so the margin 0.25
    yields 0.4999999999999999, and the margin 0.4000000000000001, the first
    one above 0.4, still yields 1.0. *)
Lemma C5_margin_normalization_counterexample :
  ¬ margin_normalization_as_specified.
Proof.
  intros (_ & _ & Hquarter & Houtside).
  assert ((normalized_margin 0.25 =? 0.5)%float = true) as Heq
    by (rewrite Hquarter; by vm_compute).
  assert ((normalized_margin 0.4000000000000001 <? 0)%float = true
          ∨ (1 <? normalized_margin 0.4000000000000001)%float = true) as Hout
    by (apply Houtside; right; by vm_compute).
  by vm_compute in Heq.
Qed.

(** C5 (amended): margin normalization is the unclamped binary64 quotient
    [(profit_margin - 0.1) / (0.4 - 0.1)], whose divisor is
    0.30000000000000004.  It takes 0.1 to 0.0 and 0.4 to 1.0, and 0.25 to
    0.4999999999999999.  Every margin below 0.1 yields a negative result,
    and every margin above 0.4 yields a result above 1, with one exception:
    0.4000000000000001, the first binary64 number above 0.4, yields exactly
    1.0.  Results outside [0, 1] are returned as computed (0.05 gives
    -0.16666666666666666 and 0.7 gives 1.9999999999999996). *)
Theorem C5_margin_normalization :
  normalized_margin 0.1 = 0.0%float
  ∧ normalized_margin 0.4 = 1.0%float
  ∧ normalized_margin 0.25 = 0.4999999999999999%float
  ∧ (∀ x, normalized_margin x = ((x - 0.1) / 0.30000000000000004)%float)
  ∧ (∀ x, (x <? 0.1)%float = true →
       (normalized_margin x <? 0)%float = true)
  ∧ (∀ x, (0.4 <? x)%float = true → x ≠ 0.4000000000000001%float →
       (1 <? normalized_margin x)%float = true)
  ∧ (0.4 <? 0.4000000000000001)%float = true
  ∧ normalized_margin 0.4000000000000001 = 1.0%float
  ∧ normalized_margin 0.05 = (-0.16666666666666666)%float
  ∧ normalized_margin 0.7 = 1.9999999999999996%float.
Proof.
  split_and!; try by vm_compute.
  - apply Binary64.normalized_margin_below.
  - intros x Hx Hne.
    destruct (Binary64.above_successor x Hx) as [|Habove]; [done|].
    by apply Binary64.normalized_margin_above.
Qed.

(** C6: [normalized_stock] does not feed the business score.  Two rows
    with the same margin whose stocks lie on the same side of 50 receive,
    for the same model score, the same business score, however far apart
    the stock levels are. *)
Theorem C6_stock_level_irrelevant `{Runtime} g score p1 p2 :
  ProfitMargin p1 = ProfitMargin p2 →
  (CurrentStock p1 <? 50)%Z = (CurrentStock p2 <? 50)%Z →
  final_score g score p1 = final_score g score p2.
Proof.
  intros Hm Hs. unfold final_score, stock_penalty. by rewrite Hm, Hs.
Qed.

Lemma C6_stock_level_irrelevant_witness :
  let p1 := {| Category := 0; ProfitMargin := 0.25; CurrentStock := 60 |} in
  let p2 := {| Category := 0; ProfitMargin := 0.25; CurrentStock := 5000 |} in
  normalized_stock (CurrentStock p1) ≠ normalized_stock (CurrentStock p2)
  ∧ final_score (H:=reference_runtime nep50) deployment 0.5 p1
    = final_score (H:=reference_runtime nep50) deployment 0.5 p2.
Proof.
  split; [by vm_compute|].
  by apply (C6_stock_level_irrelevant (H:=reference_runtime nep50)).
Defined.

(** C7: a request for a retailer id that is not a key of [retailer_map]
    raises [HTTPException(404, "Retailer not found.")] and nothing else
    happens: the world is the one the request started in, so the model was
    not called, nothing was printed and no result was produced. *)
Theorem C7_unknown_retailer `{Runtime} request w :
  retailer_map (module_globals w) !! retailer_id request = None →
  get_hybrid_recommendations request w
  = (Raises (HTTPException 404 "Retailer not found."), w).
Proof. intros Hr. by rewrite get_hybrid_recommendations_run; simpl; rewrite Hr. Qed.

Lemma C7_unknown_retailer_witness :
  get_hybrid_recommendations (H:=reference_runtime legacy) R999 used
  = (Raises (HTTPException 404 "Retailer not found."), used).
Proof.
  by apply (C7_unknown_retailer (H:=reference_runtime legacy)).
Defined.

(** The globals [g] with the scorer [m] in place of [model g]: same
    constants, same tables. *)
Definition with_model (g : globals) (m : model_inputs → list float)
    : globals :=
  {| TOP_K_CANDIDATES := TOP_K_CANDIDATES g;
     FINAL_LIST_SIZE := FINAL_LIST_SIZE g;
     W_MODEL := W_MODEL g;
     W_PROFIT := W_PROFIT g;
     W_STOCK := W_STOCK g;
     model := m;
     retailer_map := retailer_map g;
     product_map := product_map g;
     product_vectors_data := product_vectors_data g;
     product_catalog := product_catalog g;
     retailer_profiles := retailer_profiles g |}.

(** C8: the outcome of a request (the ranked list with its product ids,
    scores and ranks, or the exception) is determined by the retailer id,
    the constants, the tables and the scores the model produces: two runs
    that agree on these, whatever happened before each of them and
    whichever model produced the scores, have the same outcome; and running
    the request again right after it has run gives the same outcome
    again. *)
Theorem C8_deterministic `{Runtime} request g m1 m2 t1 t2 :
  (∀ x, m1 x = m2 x) →
  let w1 := {| module_globals := with_model g m1; trace := t1 |} in
  let w2 := {| module_globals := with_model g m2; trace := t2 |} in
  (get_hybrid_recommendations request w1).1
  = (get_hybrid_recommendations request w2).1
  ∧ (get_hybrid_recommendations request
       (get_hybrid_recommendations request w1).2).1
    = (get_hybrid_recommendations request w1).1.
Proof.
  intros Hm w1 w2.
  assert (∀ (ma mb : model_inputs → list float) (w w' : world),
    (∀ x, ma x = mb x) →
    module_globals w = with_model g ma → module_globals w' = with_model g mb →
    (get_hybrid_recommendations request w).1
    = (get_hybrid_recommendations request w').1) as Hruns.
  { intros ma mb w w' Hab Hw Hw'.
    rewrite !get_hybrid_recommendations_run. cbv zeta. rewrite Hw, Hw'.
    change (retailer_map (with_model g ma)) with (retailer_map g).
    change (retailer_map (with_model g mb)) with (retailer_map g).
    change (retailer_profiles (with_model g ma)) with (retailer_profiles g).
    change (retailer_profiles (with_model g mb)) with (retailer_profiles g).
    destruct (retailer_map g !! _) as [retailer_idx|]; [|done].
    destruct (retailer_profiles g !! _) as [retailer_data|]; [|done].
    change (build_inputs (with_model g mb)) with (build_inputs (with_model g ma)).
    destruct (build_inputs _ _ _) as [inputs|]; [|done].
    change (model (with_model g ma) inputs) with (ma inputs).
    change (model (with_model g mb) inputs) with (mb inputs).
    rewrite <- Hab.
    change (select_candidates (with_model g mb))
      with (select_candidates (with_model g ma)).
    destruct (select_candidates _ _) as [[cp cpid]|]; [|done].
    change (rerank (with_model g mb)) with (rerank (with_model g ma)).
    by destruct (rerank _ _ _). }
  split.
  - by apply (Hruns m1 m2).
  - apply (Hruns m1 m1); [done| |done].
    apply (preserves_get_hybrid_recommendations request w1).
Qed.

Lemma C8_deterministic_witness :
  let other_model := λ x : model_inputs,
    (λ i, scores !!! i) <$> seq 0 (length (p_id_input x)) in
  let w1 := {| module_globals := with_model deployment (model deployment);
               trace := [] |} in
  let w2 := {| module_globals := with_model deployment other_model;
               trace := [print_re_ranking 10] |} in
  (get_hybrid_recommendations (H:=reference_runtime legacy) R001 w1).1
  = (get_hybrid_recommendations (H:=reference_runtime legacy) R001 w2).1
  ∧ (get_hybrid_recommendations (H:=reference_runtime legacy) R001
       (get_hybrid_recommendations (H:=reference_runtime legacy) R001 w1).2).1
    = (get_hybrid_recommendations (H:=reference_runtime legacy) R001 w1).1.
Proof.
  intros other_model.
  apply (C8_deterministic (H:=reference_runtime legacy) R001 deployment
           (model deployment) other_model).
  intros x. unfold other_model. cbn [model deployment].
  apply imap_seq_0.
Defined.

(** C9: a request is read-only on the module globals: whether it returns
    or raises, the constants, the model and the five tables are, after the
    request, what they were before it. *)
Theorem C9_globals_unchanged `{Runtime} request w :
  module_globals (get_hybrid_recommendations request w).2 = module_globals w.
Proof. apply preserves_get_hybrid_recommendations. Qed.

(** C10: the existence check consults [retailer_map] only.  A retailer id
    that is a key of [retailer_map] but not of [retailer_profiles] is not
    answered with the 404 but with the [KeyError] of the unguarded profile
    lookup, before anything else happens. *)
Theorem C10_missing_profile_key_error `{Runtime} request w retailer_idx :
  retailer_map (module_globals w) !! retailer_id request = Some retailer_idx →
  retailer_profiles (module_globals w) !! retailer_id request = None →
  get_hybrid_recommendations request w
  = (Raises (KeyError (retailer_id request)), w).
Proof.
  intros Hr Hp. by rewrite get_hybrid_recommendations_run; simpl; rewrite Hr, Hp.
Qed.

Lemma C10_missing_profile_key_error_witness :
  get_hybrid_recommendations (H:=reference_runtime legacy) R002 fresh
  = (Raises (KeyError "R002"), fresh).
Proof.
  by apply (C10_missing_profile_key_error (H:=reference_runtime legacy) R002
              fresh 1%Z).
Defined.

End Claims.

(** ** Further properties of the endpoint: failures, effects, shortlist *)

Module Endpoint.

Import FloatOrder NumPy Python ApiService SortFacts Properties Example.

(** The globals [g] with another [FINAL_LIST_SIZE]. *)
Definition with_final_list_size (g : globals) (n : nat) : globals :=
  {| TOP_K_CANDIDATES := TOP_K_CANDIDATES g;
     FINAL_LIST_SIZE := n;
     W_MODEL := W_MODEL g;
     W_PROFIT := W_PROFIT g;
     W_STOCK := W_STOCK g;
     model := model g;
     retailer_map := retailer_map g;
     product_map := product_map g;
     product_vectors_data := product_vectors_data g;
     product_catalog := product_catalog g;
     retailer_profiles := retailer_profiles g |}.

(** The globals [g] with other content vectors, with another scorer, and
    with another catalog. *)
Definition with_vectors (g : globals) (v : gmap string (list float))
    : globals :=
  {| TOP_K_CANDIDATES := TOP_K_CANDIDATES g;
     FINAL_LIST_SIZE := FINAL_LIST_SIZE g;
     W_MODEL := W_MODEL g;
     W_PROFIT := W_PROFIT g;
     W_STOCK := W_STOCK g;
     model := model g;
     retailer_map := retailer_map g;
     product_map := product_map g;
     product_vectors_data := v;
     product_catalog := product_catalog g;
     retailer_profiles := retailer_profiles g |}.

Definition with_scorer (g : globals) (m : model_inputs → list float)
    : globals :=
  {| TOP_K_CANDIDATES := TOP_K_CANDIDATES g;
     FINAL_LIST_SIZE := FINAL_LIST_SIZE g;
     W_MODEL := W_MODEL g;
     W_PROFIT := W_PROFIT g;
     W_STOCK := W_STOCK g;
     model := m;
     retailer_map := retailer_map g;
     product_map := product_map g;
     product_vectors_data := product_vectors_data g;
     product_catalog := product_catalog g;
     retailer_profiles := retailer_profiles g |}.

Definition with_catalog (g : globals) (c : gmap string product_row)
    : globals :=
  {| TOP_K_CANDIDATES := TOP_K_CANDIDATES g;
     FINAL_LIST_SIZE := FINAL_LIST_SIZE g;
     W_MODEL := W_MODEL g;
     W_PROFIT := W_PROFIT g;
     W_STOCK := W_STOCK g;
     model := model g;
     retailer_map := retailer_map g;
     product_map := product_map g;
     product_vectors_data := product_vectors_data g;
     product_catalog := c;
     retailer_profiles := retailer_profiles g |}.



(** *** [mapM]: the first failure wins *)

Lemma mapM_cons {A B} (f : A → outcome B) x l :
  mapM f (x :: l) = y ← f x; k ← mapM f l; mret (y :: k).
Proof. done. Qed.

Lemma mapM_Raises {A B} (f : A → outcome B) l1 x l2 e :
  Forall (λ y, ∃ v, f y = Returns v) l1 → f x = Raises e →
  mapM f (l1 ++ x :: l2) = Raises e.
Proof.
  intros Hl1 Hx. induction Hl1 as [|y l1 [v Hv] _ IH].
  - by rewrite app_nil_l, mapM_cons, Hx.
  - rewrite <- app_comm_cons, mapM_cons, Hv, IH. done.
Qed.

Lemma mapM_Raises_inv {A B} (f : A → outcome B) l e :
  mapM f l = Raises e → ∃ x, x ∈ l ∧ f x = Raises e.
Proof.
  induction l as [|x l IH]; [done|]. rewrite mapM_cons.
  destruct (f x) as [y|e'] eqn:Hx.
  - unfold mbind at 1, outcome_bind at 1.
    destruct (mapM f l) as [k|e'] eqn:Hl; [done|].
    intros [= ->]. destruct IH as (x' & ? & ?); [done|].
    exists x'. split; [by right|done].
  - intros [= ->]. exists x. split; [by left|done].
Qed.

Lemma fmap_dict_get_Returns {V B} (h : V → B) (d : gmap string V) k :
  is_Some (d !! k) → ∃ v, h <$> dict_get d k = Returns v.
Proof. intros [v Hv]. exists (h v). unfold dict_get. by rewrite Hv. Qed.

Lemma fmap_dict_get_Raises {V B} (h : V → B) (d : gmap string V) k e :
  h <$> dict_get d k = Raises e → d !! k = None ∧ e = KeyError k.
Proof. unfold dict_get. destruct (d !! k); [done|]. by intros [= <-]. Qed.

Lemma dict_get_Raises {V} (d : gmap string V) k e :
  dict_get d k = Raises e → d !! k = None ∧ e = KeyError k.
Proof. unfold dict_get. destruct (d !! k); [done|]. by intros [= <-]. Qed.

Lemma mapM_list_get_Raises {V} (l : list V) idx e :
  mapM (list_get l) idx = Raises e → e = IndexError.
Proof.
  intros (i & _ & Hi)%mapM_Raises_inv. unfold list_get in Hi.
  destruct (l !! i); by simplify_eq.
Qed.

(** *** The batch *)

(** [build_inputs] returns exactly when every product has a vector and a
    catalog row; otherwise it raises the [KeyError] of a product id. *)
Lemma build_inputs_Raises g retailer_idx retailer_data e :
  build_inputs g retailer_idx retailer_data = Raises e →
  ∃ pid, pid ∈ (product_map g).*1 ∧ e = KeyError pid
    ∧ (product_vectors_data g !! pid = None
       ∨ product_catalog g !! pid = None).
Proof.
  unfold build_inputs.
  destruct (mapM (dict_get (product_vectors_data g)) _) as [llm|e1] eqn:H1.
  - destruct (mapM (λ pid, Category <$> _) _) as [cat|e2] eqn:H2.
    + destruct (mapM (λ pid, ProfitMargin <$> _) _) as [mg|e3] eqn:H3.
      * destruct (mapM (λ pid, CurrentStock <$> _) _) as [st|e4] eqn:H4;
          [done|].
        intros [= <-].
        apply mapM_Raises_inv in H4 as (pid & ? & [? ->]%fmap_dict_get_Raises).
        exists pid. auto.
      * intros [= <-].
        apply mapM_Raises_inv in H3 as (pid & ? & [? ->]%fmap_dict_get_Raises).
        exists pid. auto.
    + intros [= <-].
      apply mapM_Raises_inv in H2 as (pid & ? & [? ->]%fmap_dict_get_Raises).
      exists pid. auto.
  - intros [= <-].
    apply mapM_Raises_inv in H1 as (pid & ? & [? ->]%dict_get_Raises).
    exists pid. auto.
Qed.


(** *** The shortlist *)

Section Shortlist.
Context `{Runtime} (g : globals) (predictions : list float).

Lemma select_candidates_Raises e :
  select_candidates g predictions = Raises e →
  e = IndexError ∧ length (product_map g) < length predictions.
Proof.
  unfold select_candidates.
  rewrite (mapM_list_get predictions) by apply top_indices_lt.
  destruct (mapM (list_get (product_map g).*1) (top_indices (TOP_K_CANDIDATES g) predictions)) as [k|e'] eqn:Hk; [done|].
  intros [= <-]. split; [by eapply mapM_list_get_Raises|].
  apply mapM_Raises_inv in Hk as (i & Hi%top_indices_lt & Hget).
  unfold list_get in Hget.
  destruct ((product_map g).*1 !! i) eqn:Hlook; [done|].
  apply lookup_ge_None in Hlook. rewrite length_fmap in Hlook. lia.
Qed.

Lemma select_candidates_Returns_inv candidate_predictions candidate_pids :
  select_candidates g predictions
    = Returns (candidate_predictions, candidate_pids) →
  candidate_predictions = (predictions !!!.) <$> top_indices (TOP_K_CANDIDATES g) predictions
  ∧ Forall2 (λ i pid, (product_map g).*1 !! i = Some pid)
      (top_indices (TOP_K_CANDIDATES g) predictions) candidate_pids.
Proof.
  unfold select_candidates.
  rewrite (mapM_list_get predictions) by apply top_indices_lt.
  destruct (mapM (list_get (product_map g).*1) (top_indices (TOP_K_CANDIDATES g) predictions)) as [k|e'] eqn:Hk; [|done].
  intros [= <- <-]. split; [done|].
  apply mapM_Returns_1 in Hk. eapply Forall2_impl; [exact Hk|].
  intros i pid. apply list_get_Returns.
Qed.

(** Each scored triple carries the id and the model score of the candidate
    it was computed for, and that candidate has a catalog row. *)
Lemma rerank_Returns_inv candidate_predictions candidate_pids final_scores :
  rerank g candidate_predictions candidate_pids = Returns final_scores →
  Forall2 (λ c t, t.1.1 = c.2 ∧ t.2 = c.1
                  ∧ is_Some (product_catalog g !! c.2))
    (zip candidate_predictions candidate_pids) final_scores.
Proof.
  intros Hrun%mapM_Returns_1. eapply Forall2_impl; [exact Hrun|].
  intros [score pid] t. unfold rerank_candidate, dict_get. simpl.
  destruct (product_catalog g !! pid) as [p_data|]; [|done].
  intros [= <-]. eauto.
Qed.


(** What a shortlist that could be built and scored consists of: the
    triple at each place belongs to the product at the selected position. *)
Lemma shortlist_scored candidate_predictions candidate_pids final_scores :
  select_candidates g predictions
    = Returns (candidate_predictions, candidate_pids) →
  rerank g candidate_predictions candidate_pids = Returns final_scores →
  Forall2 (λ i t, (product_map g).*1 !! i = Some t.1.1
                  ∧ predictions !! i = Some t.2
                  ∧ is_Some (product_catalog g !! t.1.1))
    (top_indices (TOP_K_CANDIDATES g) predictions) final_scores.
Proof.
  intros [-> Hpids]%select_candidates_Returns_inv Hfs%rerank_Returns_inv.
  apply Forall2_same_length_lookup. split.
  - rewrite <- (Forall2_length _ _ _ Hfs), length_zip_with, length_fmap.
    rewrite <- (Forall2_length _ _ _ Hpids). lia.
  - intros n i t Hi Ht.
    destruct (Forall2_lookup_l _ _ _ _ _ Hpids Hi) as (pid & Hpid & Hkey).
    destruct (Forall2_lookup_r _ _ _ _ _ Hfs Ht) as ([s p] & Hc & Hid & Hsc & Hrow).
    apply lookup_zip_with_Some in Hc as (s' & p' & [= <- <-] & Hs & Hp).
    rewrite list_lookup_fmap, Hi in Hs. simpl in *. simplify_eq.
    split_and!; [done| |done]. rewrite <- Hs.
    apply list_lookup_lookup_total_lt.
    by apply list_elem_of_lookup_2, top_indices_lt in Hi.
Qed.

End Shortlist.

(** The product ids of a response list are the ids of the triples it is
    built from. *)
Lemma product_id_final_output g final_scores :
  product_id <$> final_output g final_scores
  = (take (FINAL_LIST_SIZE g) final_scores).*1.*1.
Proof.
  unfold final_output. generalize (take (FINAL_LIST_SIZE g) final_scores).
  intros l. rewrite fmap_imap. unfold compose.
  rewrite <- !list_fmap_compose, <- imap_const.
  apply imap_ext. by intros n [[??]?] _.
Qed.

(** Truncating a response list is building it from fewer triples. *)
Lemma take_imap {A B} (f : nat → A → B) n l :
  take n (imap f l) = imap f (take n l).
Proof.
  revert f n. induction l as [|x l IH]; intros f n.
  - by destruct n.
  - destruct n as [|n]; [done|]. rewrite imap_cons. simpl. by rewrite IH.
Qed.

(** *** Failures *)

(** The first product of [product_map] without a content vector stops the
    request with its [KeyError], whatever the catalog holds, before the
    model is called. *)
Theorem missing_vector_key_error `{Runtime} request w retailer_idx
    retailer_data before pid rest :
  retailer_map (module_globals w) !! retailer_id request = Some retailer_idx →
  retailer_profiles (module_globals w) !! retailer_id request
    = Some retailer_data →
  (product_map (module_globals w)).*1 = before ++ pid :: rest →
  Forall (λ p, is_Some (product_vectors_data (module_globals w) !! p)) before →
  product_vectors_data (module_globals w) !! pid = None →
  get_hybrid_recommendations request w = (Raises (KeyError pid), w).
Proof.
  intros Hmap Hprofile Hkeys Hbefore Hpid.
  rewrite get_hybrid_recommendations_run. cbv zeta.
  rewrite Hmap, Hprofile. unfold build_inputs. rewrite Hkeys.
  rewrite (mapM_Raises (dict_get (product_vectors_data (module_globals w)))
             before pid rest (KeyError pid)); [done| |].
  - eapply Forall_impl; [exact Hbefore|]. intros p [v Hv].
    exists v. by apply dict_get_Returns.
  - unfold dict_get. by rewrite Hpid.
Qed.

(** When every product has a content vector, the first product of
    [product_map] without a catalog row stops the request with its
    [KeyError], before the model is called. *)
Theorem missing_catalog_row_key_error `{Runtime} request w retailer_idx
    retailer_data before pid rest :
  retailer_map (module_globals w) !! retailer_id request = Some retailer_idx →
  retailer_profiles (module_globals w) !! retailer_id request
    = Some retailer_data →
  Forall (λ p, is_Some (product_vectors_data (module_globals w) !! p))
    (product_map (module_globals w)).*1 →
  (product_map (module_globals w)).*1 = before ++ pid :: rest →
  Forall (λ p, is_Some (product_catalog (module_globals w) !! p)) before →
  product_catalog (module_globals w) !! pid = None →
  get_hybrid_recommendations request w = (Raises (KeyError pid), w).
Proof.
  intros Hmap Hprofile Hvec Hkeys Hbefore Hpid.
  rewrite get_hybrid_recommendations_run. cbv zeta.
  rewrite Hmap, Hprofile. unfold build_inputs.
  destruct (mapM_Returns_total
              (dict_get (product_vectors_data (module_globals w)))
              (product_map (module_globals w)).*1) as [llm ->].
  { eapply Forall_impl; [exact Hvec|]. intros p [v Hv].
    exists v. by apply dict_get_Returns. }
  rewrite Hkeys.
  rewrite (mapM_Raises
             (λ pid, Category <$> dict_get (product_catalog (module_globals w)) pid)
             before pid rest (KeyError pid)); [done| |].
  - eapply Forall_impl; [exact Hbefore|]. intros p Hp.
    by apply fmap_dict_get_Returns.
  - unfold dict_get. by rewrite Hpid.
Qed.

(** A model that returns more scores than there are products, and no more
    than [TOP_K_CANDIDATES], makes the request fail with [IndexError]: the
    model has been called, nothing has been printed. *)
Theorem surplus_scores_index_error `{Runtime} request w retailer_idx
    retailer_data inputs :
  retailer_map (module_globals w) !! retailer_id request = Some retailer_idx →
  retailer_profiles (module_globals w) !! retailer_id request
    = Some retailer_data →
  build_inputs (module_globals w) retailer_idx retailer_data
    = Returns inputs →
  length (product_map (module_globals w))
    < length (model (module_globals w) inputs) →
  length (model (module_globals w) inputs)
    ≤ TOP_K_CANDIDATES (module_globals w) →
  get_hybrid_recommendations request w
  = (Raises IndexError, after w [predict_call inputs]).
Proof.
  intros Hmap Hprofile Hinputs Hlt Hle.
  rewrite get_hybrid_recommendations_run. cbv zeta.
  rewrite Hmap, Hprofile, Hinputs.
  set (g := module_globals w) in *. set (predictions := model g inputs) in *.
  destruct (select_candidates g predictions) as [[cp cpid]|e] eqn:Hsel.
  - exfalso. apply select_candidates_Returns_inv in Hsel as [_ Hpids].
    assert (length (product_map g) ∈ top_indices (TOP_K_CANDIDATES g) predictions)
      as Hin.
    { rewrite (top_indices_all predictions _ Hle). apply elem_of_seq. lia. }
    apply list_elem_of_lookup in Hin as [n Hn].
    destruct (Forall2_lookup_l _ _ _ _ _ Hpids Hn) as (pid & _ & Hpid).
    apply lookup_lt_Some in Hpid. rewrite length_fmap in Hpid. lia.
  - by apply select_candidates_Raises in Hsel as [-> _].
Qed.

(** *** Effects of a request that returns *)

(** A request that is answered called the model exactly once, on the batch
    of all products, then printed the number of candidates retrieved (the
    smaller of [TOP_K_CANDIDATES] and the number of products) and then the
    re-ranking line, which names [FINAL_LIST_SIZE] whatever the length of
    the list returned. *)
Theorem answered_request_effects `{Runtime} request w retailer_idx
    retailer_data :
  retailer_map (module_globals w) !! retailer_id request = Some retailer_idx →
  retailer_profiles (module_globals w) !! retailer_id request
    = Some retailer_data →
  catalog_covers (module_globals w) →
  one_score_per_product (module_globals w) →
  ∃ inputs response_list,
    build_inputs (module_globals w) retailer_idx retailer_data = Returns inputs
    ∧ get_hybrid_recommendations request w
      = (Returns response_list,
         after w [predict_call inputs;
                  print_candidate_generation
                    (TOP_K_CANDIDATES (module_globals w)
                       `min` length (product_map (module_globals w)));
                  print_re_ranking (FINAL_LIST_SIZE (module_globals w))]).
Proof.
  set (g := module_globals w). intros Hmap Hprofile Hcov Hscores.
  destruct (build_inputs_Returns g retailer_idx retailer_data Hcov)
    as (inputs & Hinputs & Hrows).
  set (predictions := model g inputs).
  assert (length predictions = length (product_map g)) as Hlen.
  { unfold predictions. by rewrite Hscores, Hrows, length_fmap. }
  destruct (rerank_Returns g predictions
              (top_indices (TOP_K_CANDIDATES g) predictions) Hcov)
    as (fs & Hfs & _).
  { intros i Hi%top_indices_lt. lia. }
  exists inputs. eexists. split; [done|].
  rewrite get_hybrid_recommendations_run. cbv zeta. fold g.
  rewrite Hmap, Hprofile, Hinputs. fold predictions.
  rewrite (select_candidates_Returns g predictions Hlen), Hfs.
  by rewrite length_fmap, top_indices_length, Hlen.
Qed.

(** *** The products of a response *)

(** The products of a response are shortlisted products, each listed
    once: every response belongs to a position selected by
    [np.argsort(predictions)[::-1][:TOP_K_CANDIDATES]], carries the id and
    the model score at that position and has a catalog row, and (the keys of
    [product_map] being distinct, as those of a dict are) no product id
    occurs twice. *)
Theorem response_products_shortlisted `{Runtime} request w response_list w' :
  NoDup (product_map (module_globals w)).*1 →
  get_hybrid_recommendations request w = (Returns response_list, w') →
  NoDup (product_id <$> response_list)
  ∧ ∃ inputs,
      ∀ r, r ∈ response_list →
        ∃ i, i ∈ top_indices (TOP_K_CANDIDATES (module_globals w))
                   (model (module_globals w) inputs)
          ∧ (product_map (module_globals w)).*1 !! i = Some (product_id r)
          ∧ model (module_globals w) inputs !! i = Some (predicted_score r)
          ∧ is_Some (product_catalog (module_globals w) !! product_id r).
Proof.
  intros Hkeys Hrun.
  rewrite get_hybrid_recommendations_run in Hrun. cbv zeta in Hrun.
  set (g := module_globals w) in *.
  destruct (retailer_map _ !! _) as [retailer_idx|]; [|done].
  destruct (retailer_profiles _ !! _) as [retailer_data|]; [|done].
  destruct (build_inputs _ _ _) as [inputs|]; [|done].
  destruct (select_candidates _ _) as [[cp cpid]|] eqn:Hsel; [|done].
  destruct (rerank _ _ _) as [fs|] eqn:Hfs; [|done].
  injection Hrun as <- _.
  pose proof (shortlist_scored g _ _ _ _ Hsel Hfs) as Hall.
  split.
  - rewrite product_id_final_output.
    apply sublist_NoDup with (sort_final_scores fs).*1.*1;
      [|apply fmap_sublist, fmap_sublist, sublist_take].
    unfold sort_final_scores. rewrite sort_reverse_perm.
    assert (Some <$> fs.*1.*1
            = ((product_map g).*1 !!.)
                <$> top_indices (TOP_K_CANDIDATES g) (model g inputs)) as Heq.
    { clear Hsel Hfs. induction Hall as [|i t idx l (Hi & _ & _) _ IH];
        csimpl; [done|]. by rewrite Hi, IH. }
    apply (NoDup_fmap_1 Some). rewrite Heq.
    apply NoDup_fmap_2_strong; [|apply top_indices_NoDup].
    intros i j Hi Hj Hij.
    apply list_elem_of_lookup in Hi as [n Hn].
    destruct (Forall2_lookup_l _ _ _ _ _ Hall Hn) as (t & _ & Ht & _).
    rewrite Ht in Hij. by eapply NoDup_lookup.
  - exists inputs. intros r (t & Ht & -> & ->)%final_output_elem_of.
    unfold sort_final_scores in Ht. rewrite sort_reverse_perm in Ht.
    apply list_elem_of_lookup in Ht as [n Ht].
    destruct (Forall2_lookup_r _ _ _ _ _ Hall Ht) as (i & Hi & ? & ? & ?).
    exists i. split_and!; try done. by eapply list_elem_of_lookup_2.
Qed.

(** *** The size of the list *)

(** [FINAL_LIST_SIZE] only truncates: with a smaller size the request
    returns the first responses of the list it returns with a larger one,
    ranks included, and fails exactly as it fails with the larger one. *)
Theorem shorter_list_is_prefix `{Runtime} request g n1 n2 t :
  n1 ≤ n2 →
  let w1 := {| module_globals := with_final_list_size g n1; trace := t |} in
  let w2 := {| module_globals := with_final_list_size g n2; trace := t |} in
  (get_hybrid_recommendations request w1).1
  = take n1 <$> (get_hybrid_recommendations request w2).1.
Proof.
  intros Hn w1 w2. rewrite !get_hybrid_recommendations_run. cbv zeta.
  cbn [module_globals w1 w2].
  change (retailer_map (with_final_list_size g n1)) with (retailer_map g).
  change (retailer_map (with_final_list_size g n2)) with (retailer_map g).
  change (retailer_profiles (with_final_list_size g n1))
    with (retailer_profiles g).
  change (retailer_profiles (with_final_list_size g n2))
    with (retailer_profiles g).
  destruct (retailer_map g !! _) as [retailer_idx|]; [|done].
  destruct (retailer_profiles g !! _) as [retailer_data|]; [|done].
  change (build_inputs (with_final_list_size g n1))
    with (build_inputs (with_final_list_size g n2)).
  destruct (build_inputs _ _ _) as [inputs|]; [|done].
  change (model (with_final_list_size g n1)) with (model g).
  change (model (with_final_list_size g n2)) with (model g).
  change (select_candidates (with_final_list_size g n1))
    with (select_candidates (with_final_list_size g n2)).
  destruct (select_candidates _ _) as [[cp cpid]|]; [|done].
  change (rerank (with_final_list_size g n1))
    with (rerank (with_final_list_size g n2)).
  destruct (rerank _ _ _) as [fs|]; [|done].
  cbn [fst fmap outcome_fmap]. f_equal. unfold final_output.
  cbn [FINAL_LIST_SIZE with_final_list_size].
  rewrite take_imap, take_take. f_equal. f_equal. lia.
Qed.

(** *** The rows of the batch *)

Lemma mapM_fmap_dict_get_lookup {V B} (h : V → B) (d : gmap string V)
    (keys : list string) (col : list B) i k :
  mapM (λ k, h <$> dict_get d k) keys = Returns col →
  keys !! i = Some k →
  ∃ v, d !! k = Some v ∧ col !! i = Some (h v).
Proof.
  intros Hcol%mapM_Returns_1 Hk.
  destruct (Forall2_lookup_l _ _ _ _ _ Hcol Hk) as (b & Hb & Hget).
  unfold dict_get in Hget. destruct (d !! k) as [v|]; [|done].
  exists v. cbn in Hget. by simplify_eq.
Qed.

(** Row [i] of every array of the batch describes the [i]-th product of
    [product_map]. *)
Lemma build_inputs_rows g retailer_idx retailer_data inputs i pid :
  build_inputs g retailer_idx retailer_data = Returns inputs →
  (product_map g).*1 !! i = Some pid →
  ∃ row vec,
    product_catalog g !! pid = Some row
    ∧ product_vectors_data g !! pid = Some vec
    ∧ llm_vec_input inputs !! i = Some vec
    ∧ cat_input inputs !! i = Some (Category row)
    ∧ margin_input inputs !! i = Some (ProfitMargin row)
    ∧ stock_input inputs !! i = Some (CurrentStock row).
Proof.
  unfold build_inputs. intros Hrun Hpid.
  destruct (mapM (dict_get (product_vectors_data g)) _) as [llm|] eqn:Hllm;
    [|done].
  destruct (mapM (λ pid, Category <$> _) _) as [cat|] eqn:Hcat; [|done].
  destruct (mapM (λ pid, ProfitMargin <$> _) _) as [mg|] eqn:Hmg; [|done].
  destruct (mapM (λ pid, CurrentStock <$> _) _) as [st|] eqn:Hst; [|done].
  injection Hrun as <-. cbn.
  apply mapM_Returns_1 in Hllm.
  destruct (Forall2_lookup_l _ _ _ _ _ Hllm Hpid) as (vec & Hvec & Hget).
  apply dict_get_Returns in Hget.
  destruct (mapM_fmap_dict_get_lookup _ _ _ _ _ _ Hcat Hpid) as (row & Hrow & ?).
  destruct (mapM_fmap_dict_get_lookup _ _ _ _ _ _ Hmg Hpid) as (row' & Hrow' & ?).
  destruct (mapM_fmap_dict_get_lookup _ _ _ _ _ _ Hst Hpid) as (row'' & Hrow'' & ?).
  simplify_eq. by exists row, vec.
Qed.

Lemma build_inputs_retailer g retailer_idx retailer_data inputs :
  build_inputs g retailer_idx retailer_data = Returns inputs →
  r_id_input inputs = replicate (length (product_map g)) retailer_idx
  ∧ st_input inputs
    = replicate (length (product_map g)) (StoreType retailer_data)
  ∧ lt_input inputs
    = replicate (length (product_map g)) (LocationTier retailer_data)
  ∧ p_id_input inputs = (product_map g).*2.
Proof.
  unfold build_inputs. intros Hrun.
  destruct (mapM (dict_get (product_vectors_data g)) _) as [llm|]; [|done].
  destruct (mapM (λ pid, Category <$> _) _) as [cat|]; [|done].
  destruct (mapM (λ pid, ProfitMargin <$> _) _) as [mg|]; [|done].
  destruct (mapM (λ pid, CurrentStock <$> _) _) as [st|]; [|done].
  injection Hrun as <-. cbn. by rewrite length_fmap.
Qed.

(** *** Where the 404 comes from *)

Lemma rerank_Raises `{Runtime} g candidate_predictions candidate_pids e :
  rerank g candidate_predictions candidate_pids = Raises e →
  ∃ pid, e = KeyError pid.
Proof.
  intros ([score pid] & _ & Hc)%mapM_Raises_inv.
  unfold rerank_candidate, dict_get in Hc.
  destruct (product_catalog g !! pid); [done|].
  exists pid. cbn in Hc. by simplify_eq.
Qed.

(** An [HTTPException] can only be the one of the unknown retailer. *)
Lemma http_exception_inv `{Runtime} request w status_code detail :
  (get_hybrid_recommendations request w).1
    = Raises (HTTPException status_code detail) →
  retailer_map (module_globals w) !! retailer_id request = None.
Proof.
  rewrite get_hybrid_recommendations_run. cbv zeta.
  destruct (retailer_map _ !! _) as [retailer_idx|]; [|done].
  destruct (retailer_profiles _ !! _) as [retailer_data|]; [|done].
  destruct (build_inputs _ _ _) as [inputs|e] eqn:Hinputs.
  2: { by apply build_inputs_Raises in Hinputs as (pid & _ & -> & _). }
  destruct (select_candidates _ _) as [[cp cpid]|e] eqn:Hsel.
  2: { by apply select_candidates_Raises in Hsel as [-> _]. }
  destruct (rerank _ _ _) as [fs|e] eqn:Hfs; [done|].
  by apply rerank_Raises in Hfs as [pid ->].
Qed.

(** *** Every way a request can end *)



(** *** The deployments the properties above are run on *)

(** The three-product deployment without the vector of P0001, and without
    the catalog row of P0002. *)
Definition deployment_without_vector : globals :=
  with_vectors deployment
    {[ "P0000" := [0.5%float]; "P0002" := [0.125%float] ]}.

Definition deployment_without_row : globals :=
  with_catalog deployment
    {[ "P0000" := {| Category := 0; ProfitMargin := 0.1; CurrentStock := 10 |};
       "P0001" := {| Category := 1; ProfitMargin := 0.4; CurrentStock := 200 |} ]}.

(** The three-product deployment with a scorer that returns a fourth
    score. *)
Definition deployment_with_surplus : globals :=
  with_scorer deployment (λ x, model deployment x ++ [0.5%float]).

Definition in_world (g : globals) : world :=
  {| module_globals := g; trace := [] |}.

Lemma missing_vector_key_error_witness :
  get_hybrid_recommendations (H:=reference_runtime legacy) R001
    (in_world deployment_without_vector)
  = (Raises (KeyError "P0001"), in_world deployment_without_vector).
Proof.
  apply (missing_vector_key_error (H:=reference_runtime legacy) R001
           (in_world deployment_without_vector) 0%Z
           {| StoreType := 1; LocationTier := 2 |} ["P0000"] "P0001" ["P0002"]).
  - reflexivity.
  - reflexivity.
  - reflexivity.
  - repeat constructor. by eexists.
  - reflexivity.
Defined.

Lemma missing_catalog_row_key_error_witness :
  get_hybrid_recommendations (H:=reference_runtime legacy) R001
    (in_world deployment_without_row)
  = (Raises (KeyError "P0002"), in_world deployment_without_row).
Proof.
  apply (missing_catalog_row_key_error (H:=reference_runtime legacy) R001
           (in_world deployment_without_row) 0%Z
           {| StoreType := 1; LocationTier := 2 |}
           ["P0000"; "P0001"] "P0002" []).
  - reflexivity.
  - reflexivity.
  - repeat constructor; by eexists.
  - reflexivity.
  - repeat constructor; by eexists.
  - reflexivity.
Defined.

Lemma surplus_scores_index_error_witness :
  ∃ inputs,
    get_hybrid_recommendations (H:=reference_runtime legacy) R001
      (in_world deployment_with_surplus)
    = (Raises IndexError,
       after (in_world deployment_with_surplus) [predict_call inputs]).
Proof.
  eexists.
  apply (surplus_scores_index_error (H:=reference_runtime legacy) R001
           (in_world deployment_with_surplus) 0%Z
           {| StoreType := 1; LocationTier := 2 |}).
  - reflexivity.
  - reflexivity.
  - vm_compute. reflexivity.
  - vm_compute. lia.
  - vm_compute. lia.
Defined.

Lemma answered_request_effects_witness :
  ∃ inputs response_list,
    build_inputs deployment 0%Z {| StoreType := 1; LocationTier := 2 |}
      = Returns inputs
    ∧ get_hybrid_recommendations (H:=reference_runtime legacy) R001 fresh
      = (Returns response_list,
         after fresh [predict_call inputs; print_candidate_generation 3;
                      print_re_ranking 10]).
Proof.
  apply (answered_request_effects (H:=reference_runtime legacy) R001 fresh).
  - reflexivity.
  - reflexivity.
  - intros pid Hpid. cbn in Hpid.
    repeat (apply elem_of_cons in Hpid as [->|Hpid]; [by split; eexists|]).
    by apply elem_of_nil in Hpid.
  - intros x. apply length_imap.
Defined.

Lemma response_products_shortlisted_witness :
  ∃ response_list,
    product_id <$> response_list = ["P0001"; "P0002"; "P0000"]
    ∧ NoDup (product_id <$> response_list)
    ∧ ∃ inputs,
        ∀ r, r ∈ response_list →
          ∃ i, i ∈ top_indices (H:=reference_runtime legacy) 500
                     (model deployment inputs)
            ∧ ["P0000"; "P0001"; "P0002"] !! i = Some (product_id r)
            ∧ model deployment inputs !! i = Some (predicted_score r)
            ∧ is_Some (product_catalog deployment !! product_id r).
Proof.
  eexists. split; cycle 1.
  - eapply (response_products_shortlisted (H:=reference_runtime legacy)
              R001 fresh).
    + apply (bool_decide_unpack _). by vm_compute.
    + vm_compute. reflexivity.
  - reflexivity.
Defined.

Lemma shorter_list_is_prefix_witness :
  (get_hybrid_recommendations (H:=reference_runtime legacy) R001
     (in_world (with_final_list_size deployment 2))).1
  = take 2 <$> (get_hybrid_recommendations (H:=reference_runtime legacy) R001
                  (in_world (with_final_list_size deployment 10))).1.
Proof.
  apply (shorter_list_is_prefix (H:=reference_runtime legacy) R001
           deployment 2 10 []). lia.
Defined.

End Endpoint.

(** ** data_prep.py: the ids and the index maps *)

Module DataPrep.

Import Stdlib.Strings.Ascii.
Import NumPy ApiService Properties Endpoint.

(** *** Configuration *)

Definition NUM_RETAILERS : nat := 500.
Definition NUM_PRODUCTS : nat := 1000.

(** *** The ids

    [f'{i:03d}'] on an [i] of [range(n)]: the decimal digits of [i], filled
    with zeros on the left up to the width; a number with more digits than
    the width is written in full. *)

Fixpoint zeros (n : nat) : string :=
  match n with
  | 0 => ""
  | S n => String "0"%char (zeros n)
  end.

Definition format_0d (width : nat) (i : nat) : string :=
  let digits := pretty i in
  zeros (width - String.length digits) +:+ digits.

(** [f'R{i:03d}'] and [f'P{i:04d}'] *)
Definition retailer_id_of (i : nat) : string := "R" +:+ format_0d 3 i.
Definition product_id_of (i : nat) : string := "P" +:+ format_0d 4 i.

(** [[f'R{i:03d}' for i in range(n)]] and its product counterpart. *)
Definition retailer_ids (n : nat) : list string :=
  retailer_id_of <$> seq 0 n.

Definition product_ids (n : nat) : list string :=
  product_id_of <$> seq 0 n.

(** *** The index maps

    A dict keeps its keys in insertion order; storing under a key that is
    already there replaces the value and leaves the key in its place. *)

Definition dict_set (d : list (string * Z)) (k : string) (v : Z)
    : list (string * Z) :=
  if decide (k ∈ d.*1)
  then (λ kv, if decide (kv.1 = k) then (k, v) else kv) <$> d
  else d ++ [(k, v)].

(** [enumerate(l)] *)
Definition enumerate {A} (l : list A) : list (nat * A) :=
  imap (λ i x, (i, x)) l.

(** [{id: i for i, id in enumerate(ids)}] *)
Definition index_map (ids : list string) : list (string * Z) :=
  foldl (λ d p, dict_set d p.2 (Z.of_nat p.1)) [] (enumerate ids).

(** The two maps pickled "for production serving". *)
Definition retailer_map (n : nat) : list (string * Z) :=
  index_map (retailer_ids n).

Definition product_map (n : nat) : list (string * Z) :=
  index_map (product_ids n).

(** *** Decimal digits *)

Lemma pretty_N_char_nonzero (x : N) :
  (0 < x < 10)%N → pretty_N_char x ≠ "0"%char.
Proof.
  intros Hx. unfold pretty_N_char.
  repeat case_match; try done; lia.
Qed.

(** The digits of a positive number do not start with a zero. *)
Lemma pretty_N_go_head (x : N) s :
  (0 < x)%N → ∃ c s', pretty_N_go x s = String c s' ∧ c ≠ "0"%char.
Proof.
  revert s. induction (N.lt_wf_0 x) as [x _ IH]. intros s Hx.
  rewrite pretty_N_go_step by done.
  destruct (decide (x `div` 10 = 0)%N) as [Hdiv|Hdiv].
  - rewrite Hdiv, pretty_N_go_0. eexists _, _. split; [done|].
    apply pretty_N_char_nonzero.
    apply N.div_small_iff in Hdiv; [|done].
    rewrite N.mod_small by done. lia.
  - apply IH.
    + apply N.div_lt; lia.
    + by apply N.neq_0_lt_0.
Qed.

Lemma pretty_nat_head (i : nat) :
  0 < i → ∃ c s', pretty i = String c s' ∧ c ≠ "0"%char.
Proof.
  intros Hi. unfold pretty, pretty_nat, pretty, pretty_N.
  case_decide; [lia|]. apply pretty_N_go_head. lia.
Qed.

Lemma pretty_nat_0 : pretty 0 = "0".
Proof. done. Qed.

(** Dropping the zeros a string starts with. *)
Fixpoint strip_zeros (s : string) : string :=
  match s with
  | String "0"%char s' => strip_zeros s'
  | _ => s
  end.

Lemma strip_zeros_zeros n s : strip_zeros (zeros n +:+ s) = strip_zeros s.
Proof. induction n as [|n IH]; [done|]. simpl. exact IH. Qed.

Lemma strip_zeros_head c s :
  c ≠ "0"%char → strip_zeros (String c s) = String c s.
Proof.
  intros Hc. simpl.
  destruct c as [[] [] [] [] [] [] [] []]; try done.
Qed.

Lemma strip_zeros_format_0d width i :
  strip_zeros (format_0d width i) = if decide (i = 0) then "" else pretty i.
Proof.
  unfold format_0d. rewrite strip_zeros_zeros.
  case_decide as Hi; [by subst|].
  destruct (pretty_nat_head i) as (c & s' & -> & Hc); [lia|].
  by apply strip_zeros_head.
Qed.

Lemma format_0d_inj width : Inj (=) (=) (format_0d width).
Proof.
  intros i j Hij.
  assert (strip_zeros (format_0d width i) = strip_zeros (format_0d width j))
    as Hs by by rewrite Hij.
  rewrite !strip_zeros_format_0d in Hs.
  repeat case_decide; subst; try done.
  - destruct (pretty_nat_head j) as (c & s' & Hj & _); [lia|].
    by rewrite Hj in Hs.
  - destruct (pretty_nat_head i) as (c & s' & Hi & _); [lia|].
    by rewrite Hi in Hs.
  - by apply (inj pretty).
Qed.

#[global] Instance retailer_id_of_inj : Inj (=) (=) retailer_id_of.
Proof. intros i j [= Hij]. by apply format_0d_inj in Hij. Qed.

#[global] Instance product_id_of_inj : Inj (=) (=) product_id_of.
Proof. intros i j [= Hij]. by apply format_0d_inj in Hij. Qed.

(** *** The length of an id *)

Lemma pretty_N_go_length (k : nat) (x : N) s :
  (x < 10 ^ N.of_nat k)%N →
  String.length (pretty_N_go x s) ≤ String.length s + k.
Proof.
  revert x s. induction k as [|k IH]; intros x s Hx.
  - assert (x = 0%N) as -> by (simpl in Hx; lia).
    rewrite pretty_N_go_0. lia.
  - destruct (decide (x = 0%N)) as [->|Hx0].
    { rewrite pretty_N_go_0. lia. }
    rewrite pretty_N_go_step by lia.
    etransitivity; [apply IH|simpl; lia].
    rewrite Nat2N.inj_succ, N.pow_succ_r' in Hx.
    apply N.Div0.div_lt_upper_bound; lia.
Qed.

Lemma pretty_nat_length (k i : nat) :
  0 < k → i < 10 ^ k → String.length (pretty i) ≤ k.
Proof.
  intros Hk Hi. unfold pretty, pretty_nat, pretty, pretty_N.
  case_decide; [simpl; lia|].
  etransitivity; [apply (pretty_N_go_length k)|simpl; lia].
  change 10%N with (N.of_nat 10). rewrite <- Nat2N.inj_pow. lia.
Qed.

Lemma length_zeros n : String.length (zeros n) = n.
Proof. induction n; simpl; auto. Qed.

Lemma length_string_app (s1 s2 : string) :
  String.length (s1 +:+ s2) = String.length s1 + String.length s2.
Proof. induction s1; simpl; auto. Qed.

Lemma length_format_0d width i :
  String.length (format_0d width i) = width `max` String.length (pretty i).
Proof. unfold format_0d. rewrite length_string_app, length_zeros. lia. Qed.

(** *** The index maps *)

Lemma dict_set_fresh d k v : k ∉ d.*1 → dict_set d k v = d ++ [(k, v)].
Proof. intros Hk. unfold dict_set. by rewrite decide_False. Qed.

Lemma foldl_dict_set_fresh (d : list (string * Z)) (k : nat) ids :
  NoDup (d.*1 ++ ids) →
  foldl (λ d p, dict_set d p.2 (Z.of_nat p.1)) d
    (imap (λ i x, (k + i, x)) ids)
  = d ++ imap (λ i x, (x, Z.of_nat (k + i))) ids.
Proof.
  revert d k. induction ids as [|x ids IH]; intros d k Hnd.
  - by rewrite app_nil_r.
  - rewrite !imap_cons. cbn [foldl fst snd].
    pose proof Hnd as (Hd & Hdisj & [Hx Hids]%NoDup_cons)%NoDup_app.
    rewrite dict_set_fresh.
    2: { intros Hin. apply (Hdisj _ Hin). by left. }
    rewrite (imap_ext _ (λ i y, (S k + i, y))).
    2: { intros i y _. simpl. f_equal. lia. }
    rewrite IH.
    + rewrite <- (assoc_L (++)). simpl. do 2 f_equal.
      apply imap_ext. intros i y _. simpl. do 2 f_equal. lia.
    + rewrite fmap_app. simpl. by rewrite <- (assoc_L (++)).
Qed.

Lemma index_map_NoDup ids :
  NoDup ids → index_map ids = imap (λ i x, (x, Z.of_nat i)) ids.
Proof.
  intros Hnd. unfold index_map, enumerate.
  exact (foldl_dict_set_fresh [] 0 ids Hnd).
Qed.

Lemma imap_fmap_seq {A B} (f : nat → A) (h : nat → A → B) n :
  imap h (f <$> seq 0 n) = (λ i, h i (f i)) <$> seq 0 n.
Proof.
  apply list_eq. intros i.
  rewrite list_lookup_imap, !list_lookup_fmap.
  destruct (seq 0 n !! i) as [j|] eqn:Hj; [|done].
  apply lookup_seq in Hj as [-> _]. done.
Qed.

Lemma retailer_ids_NoDup n : NoDup (retailer_ids n).
Proof. apply NoDup_fmap_2; [apply _|apply NoDup_seq]. Qed.

Lemma product_ids_NoDup n : NoDup (product_ids n).
Proof. apply NoDup_fmap_2; [apply _|apply NoDup_seq]. Qed.

Lemma retailer_map_seq n :
  retailer_map n = (λ i, (retailer_id_of i, Z.of_nat i)) <$> seq 0 n.
Proof.
  unfold retailer_map. rewrite index_map_NoDup by apply retailer_ids_NoDup.
  apply imap_fmap_seq.
Qed.

Lemma product_map_seq n :
  product_map n = (λ i, (product_id_of i, Z.of_nat i)) <$> seq 0 n.
Proof.
  unfold product_map. rewrite index_map_NoDup by apply product_ids_NoDup.
  apply imap_fmap_seq.
Qed.

(** Looking an id up in an index map, as the service does once the pickle
    is loaded. *)
Lemma lookup_index_map (id_of : nat → string) `{!Inj (=) (=) id_of} n i :
  (list_to_map ((λ i, (id_of i, Z.of_nat i)) <$> seq 0 n) : gmap string Z)
    !! id_of i
  = if decide (i < n) then Some (Z.of_nat i) else None.
Proof.
  case_decide as Hi.
  - apply elem_of_list_to_map_1.
    + rewrite <- list_fmap_compose.
      apply NoDup_fmap_2; [|apply NoDup_seq].
      intros j k. simpl. apply (inj id_of).
    + apply (list_elem_of_fmap_2 (λ i, (id_of i, Z.of_nat i))).
      apply elem_of_seq. lia.
  - apply not_elem_of_list_to_map_1. rewrite <- list_fmap_compose.
    intros (j & Hj%(inj id_of) & Hin%elem_of_seq)%list_elem_of_fmap.
    simpl in *. lia.
Qed.

(** *** mode1_train.py: the size of the embedding tables

    [NUM_RETAILERS = len(retailer_map)] and [NUM_PRODUCTS = len(product_map)]
    are the [input_dim] of the two [Embedding] layers: the rows an index
    may select are [0 .. input_dim - 1]. *)
Definition input_dim (index_map : list (string * Z)) : Z :=
  Z.of_nat (length index_map).

(** *** The service on the maps of data_prep.py *)

(** The service has loaded the maps pickled for [n_retailers] retailers and
    [n_products] products. *)
Definition serves (g : globals) (n_retailers n_products : nat) : Prop :=
  ApiService.retailer_map g = list_to_map (retailer_map n_retailers)
  ∧ ApiService.product_map g = product_map n_products.

(** The three-product deployment on the maps of data_prep.py for two
    retailers and three products. *)
Definition prepared : globals :=
  {| TOP_K_CANDIDATES := 500;
     FINAL_LIST_SIZE := 10;
     W_MODEL := 0.5;
     W_PROFIT := 0.3;
     W_STOCK := 0.2;
     model := model Example.deployment;
     ApiService.retailer_map := list_to_map (retailer_map 2);
     ApiService.product_map := product_map 3;
     product_vectors_data := product_vectors_data Example.deployment;
     product_catalog := product_catalog Example.deployment;
     retailer_profiles :=
       {[ "R000" := {| StoreType := 0; LocationTier := 1 |};
          "R001" := {| StoreType := 1; LocationTier := 2 |} ]} |}.

(** *** Properties *)

(** The generated ids never collide, whatever the number of retailers and
    products: [f'{i:03d}'] pads short numbers and writes long ones in
    full. *)
Theorem ids_distinct (n : nat) :
  NoDup (retailer_ids n) ∧ NoDup (product_ids n)
  ∧ (∀ i j, retailer_id_of i = retailer_id_of j → i = j)
  ∧ (∀ i j, product_id_of i = product_id_of j → i = j)
  ∧ retailer_ids 3 = ["R000"; "R001"; "R002"]
  ∧ product_id_of 42 = "P0042"
  ∧ retailer_id_of 1234 = "R1234".
Proof.
  split_and!; try by vm_compute.
  - apply retailer_ids_NoDup.
  - apply product_ids_NoDup.
  - apply retailer_id_of_inj.
  - apply product_id_of_inj.
Qed.

(** Up to 1000 retailers and 10000 products the ids have a fixed length:
    four characters for a retailer, five for a product. *)
Theorem ids_fixed_width (n_retailers n_products : nat) :
  n_retailers ≤ 10 ^ 3 → n_products ≤ 10 ^ 4 →
  Forall (λ id, String.length id = 4) (retailer_ids n_retailers)
  ∧ Forall (λ id, String.length id = 5) (product_ids n_products).
Proof.
  intros Hn Hm.
  split; apply Forall_fmap, Forall_forall; intros i [_ Hi]%elem_of_seq.
  - change (S (String.length (format_0d 3 i)) = 4).
    rewrite length_format_0d.
    pose proof (pretty_nat_length 3 i). lia.
  - change (S (String.length (format_0d 4 i)) = 5).
    rewrite length_format_0d.
    pose proof (pretty_nat_length 4 i). lia.
Qed.

(** The index maps number the ids in order: the keys are the ids, in the
    order they were generated, the values are 0, 1, ..., and looking up the
    id of [i] gives [i] back exactly when [i] is below the number of ids. *)
Theorem index_maps_number_the_ids (n i : nat) :
  (retailer_map n).*1 = retailer_ids n
  ∧ (retailer_map n).*2 = Z.of_nat <$> seq 0 n
  ∧ (product_map n).*1 = product_ids n
  ∧ (product_map n).*2 = Z.of_nat <$> seq 0 n
  ∧ (list_to_map (retailer_map n) : gmap string Z) !! retailer_id_of i
    = (if decide (i < n) then Some (Z.of_nat i) else None)
  ∧ (list_to_map (product_map n) : gmap string Z) !! product_id_of i
    = (if decide (i < n) then Some (Z.of_nat i) else None).
Proof.
  rewrite retailer_map_seq, product_map_seq.
  unfold retailer_ids, product_ids.
  rewrite <- !list_fmap_compose.
  split_and!; try done; apply (lookup_index_map _).
Qed.

(** Every index stored in a map is a row of the embedding table sized by
    that map. *)
Theorem indices_within_embedding (n : nat) :
  Forall (λ kv, (0 ≤ kv.2 < input_dim (retailer_map n))%Z) (retailer_map n)
  ∧ Forall (λ kv, (0 ≤ kv.2 < input_dim (product_map n))%Z) (product_map n).
Proof.
  unfold input_dim. rewrite retailer_map_seq, product_map_seq.
  rewrite !length_fmap, !length_seq.
  split; apply Forall_fmap, Forall_forall;
    intros i [_ Hi]%elem_of_seq; simpl; lia.
Qed.

(** On the maps of data_prep.py the service answers the request for the
    id of [i] with the 404 exactly when [i] is not below the number of
    retailers. *)
Theorem not_found_iff_out_of_range `{Runtime} request w n_retailers
    n_products i :
  serves (module_globals w) n_retailers n_products →
  retailer_id request = retailer_id_of i →
  (get_hybrid_recommendations request w).1
    = Raises (HTTPException 404 "Retailer not found.")
  ↔ n_retailers ≤ i.
Proof.
  intros [Hmap _] Hid.
  pose proof (lookup_index_map retailer_id_of n_retailers i) as Hlook.
  rewrite <- retailer_map_seq, <- Hmap, <- Hid in Hlook.
  split.
  - intros Hrun%http_exception_inv. rewrite Hrun in Hlook.
    case_decide; [done|lia].
  - intros Hi. rewrite decide_False in Hlook by lia.
    rewrite get_hybrid_recommendations_run. cbv zeta. by rewrite Hlook.
Qed.

(** On the maps of data_prep.py, row [i] of the batch handed to the model
    is product [f'P{i:04d}']: its index is [i], and its vector, category,
    margin and stock are those stored under that id; the retailer's index
    and features are repeated on every row. *)
Theorem batch_rows_aligned g n_retailers n_products retailer_idx
    retailer_data inputs :
  serves g n_retailers n_products →
  build_inputs g retailer_idx retailer_data = Returns inputs →
  p_id_input inputs = Z.of_nat <$> seq 0 n_products
  ∧ r_id_input inputs = replicate n_products retailer_idx
  ∧ st_input inputs = replicate n_products (StoreType retailer_data)
  ∧ lt_input inputs = replicate n_products (LocationTier retailer_data)
  ∧ ∀ i, i < n_products →
      ∃ row vec,
        product_catalog g !! product_id_of i = Some row
        ∧ product_vectors_data g !! product_id_of i = Some vec
        ∧ llm_vec_input inputs !! i = Some vec
        ∧ cat_input inputs !! i = Some (Category row)
        ∧ margin_input inputs !! i = Some (ProfitMargin row)
        ∧ stock_input inputs !! i = Some (CurrentStock row).
Proof.
  intros [_ Hmap] Hrun.
  destruct (build_inputs_retailer _ _ _ _ Hrun) as (-> & -> & -> & ->).
  rewrite Hmap, product_map_seq, length_fmap, length_seq.
  rewrite <- list_fmap_compose. split_and!; try done.
  intros i Hi. apply (build_inputs_rows _ _ _ _ i _ Hrun).
  rewrite Hmap, product_map_seq, <- list_fmap_compose, list_lookup_fmap.
  by rewrite lookup_seq_lt.
Qed.

Lemma prepared_serves : serves prepared 2 3.
Proof. done. Qed.

Lemma ids_fixed_width_witness :
  Forall (λ id, String.length id = 4) (retailer_ids NUM_RETAILERS)
  ∧ Forall (λ id, String.length id = 5) (product_ids NUM_PRODUCTS).
Proof.
  apply (ids_fixed_width NUM_RETAILERS NUM_PRODUCTS);
    apply Nat.leb_le; reflexivity.
Defined.

Lemma not_found_iff_out_of_range_witness :
  (get_hybrid_recommendations (H:=reference_runtime legacy)
     {| retailer_id := "R002" |} (in_world prepared)).1
    = Raises (HTTPException 404 "Retailer not found.")
  ↔ 2 ≤ 2.
Proof.
  apply (not_found_iff_out_of_range (H:=reference_runtime legacy)
           {| retailer_id := "R002" |} (in_world prepared) 2 3 2).
  - exact prepared_serves.
  - reflexivity.
Defined.

Lemma batch_rows_aligned_witness :
  ∃ inputs,
    build_inputs prepared 1 {| StoreType := 1; LocationTier := 2 |}
      = Returns inputs
    ∧ p_id_input inputs = [0; 1; 2]%Z
    ∧ r_id_input inputs = [1; 1; 1]%Z
    ∧ st_input inputs = [1; 1; 1]%Z
    ∧ lt_input inputs = [2; 2; 2]%Z
    ∧ ∀ i, i < 3 →
        ∃ row vec,
          product_catalog prepared !! product_id_of i = Some row
          ∧ product_vectors_data prepared !! product_id_of i = Some vec
          ∧ llm_vec_input inputs !! i = Some vec
          ∧ cat_input inputs !! i = Some (Category row)
          ∧ margin_input inputs !! i = Some (ProfitMargin row)
          ∧ stock_input inputs !! i = Some (CurrentStock row).
Proof.
  eexists. split; [vm_compute; reflexivity|].
  apply (batch_rows_aligned prepared 2 3 1
           {| StoreType := 1; LocationTier := 2 |}).
  - exact prepared_serves.
  - vm_compute. reflexivity.
Defined.

End DataPrep.

(** ** api_service.py: loading the artifacts at startup *)

Module Startup.

Import NumPy ApiService Properties Endpoint.

(** *** Configuration *)

Definition MODEL_PATH : string := "model_artifacts/hybrid_recommender.h5".
Definition ARTIFACTS_DIR : string := "model_artifacts".

(** [os.path.join(ARTIFACTS_DIR, name)] on a POSIX system, for a directory
    name without a trailing slash and a relative file name. *)
Definition path_join (dir name : string) : string :=
  dir +:+ "/" +:+ name.

(** *** Exceptions, files and frames *)

(** An exception, by the name of its class and by [str(e)]. *)
Record py_exception := {
  exc_type : string;
  exc_str : string;
}.

Inductive result (A : Type) :=
  | Ok (a : A)
  | Err (e : py_exception).
Arguments Ok {A} a.
Arguments Err {A} e.

(** A frame read from a CSV file whose first column is the id: one entry
    per line, the id and the other columns.  The categorical columns hold
    the integer codes data_prep.py wrote, so that [astype(int)] leaves them
    as they are. *)
Definition frame (row : Type) : Type := list (string * row).

(** What is outside the process: the model file, the three pickles and the
    two CSV files.  Each read either raises or yields what is stored. *)
Class Storage := {
  keras_load_model : string → result (model_inputs → list float);
  pickle_load_retailer_map : string → result (gmap string Z);
  pickle_load_product_map : string → result (list (string * Z));
  pickle_load_product_vectors : string → result (gmap string (list float));
  read_csv_products : string → result (frame product_row);
  read_csv_retailers : string → result (frame retailer_row);
}.

(** [df.set_index(id).to_dict('index')]: the rows by id; pandas refuses an
    index with a repeated id. *)
Definition to_dict_index {row} (df : frame row) : result (gmap string row) :=
  if decide (NoDup df.*1) then Ok (list_to_map df)
  else Err {| exc_type := "ValueError";
              exc_str := "DataFrame index must be unique for orient='index'." |}.

(** *** The process: the module globals and what it did to the outside *)

Inductive effect :=
  | printed (line : string)
  | load_model_called (path : string)
  | opened (path : string)
  | read_csv_called (path : string).

Record process := {
  globals_now : globals;
  effects : list effect;
}.

Definition L (A : Type) : Type := process → result A * process.

#[global] Instance L_ret : MRet L := λ A a p, (Ok a, p).

#[global] Instance L_bind : MBind L := λ A B f m p,
  match m p with
  | (Ok a, p') => f a p'
  | (Err e, p') => (Err e, p')
  end.

Definition lift_result {A} (r : result A) : L A := λ p, (r, p).

Definition raise_exc {A} (e : py_exception) : L A := lift_result (Err e).

Definition do (ev : effect) : L () :=
  λ p, (Ok (), {| globals_now := globals_now p;
                  effects := effects p ++ [ev] |}).

(** A call to the outside: it happens, and returns or raises. *)
Definition call {A} (ev : effect) (r : result A) : L A :=
  _ ← do ev; lift_result r.

(** [global x; x = v] *)
Definition assign (update : globals → globals) : L () :=
  λ p, (Ok (), {| globals_now := update (globals_now p);
                  effects := effects p |}).

(** [try: body except Exception as e: handler(e)] *)
Definition try_except {A} (body : L A) (handler : py_exception → L A) : L A :=
  λ p, match body p with
       | (Ok a, p') => (Ok a, p')
       | (Err e, p') => handler e p'
       end.

(** The globals [g] with another [retailer_map], [product_map] and
    [retailer_profiles]. *)
Definition with_retailer_map (g : globals) (d : gmap string Z) : globals :=
  {| TOP_K_CANDIDATES := TOP_K_CANDIDATES g;
     FINAL_LIST_SIZE := FINAL_LIST_SIZE g;
     W_MODEL := W_MODEL g;
     W_PROFIT := W_PROFIT g;
     W_STOCK := W_STOCK g;
     model := model g;
     retailer_map := d;
     product_map := product_map g;
     product_vectors_data := product_vectors_data g;
     product_catalog := product_catalog g;
     retailer_profiles := retailer_profiles g |}.

Definition with_product_map (g : globals) (d : list (string * Z)) : globals :=
  {| TOP_K_CANDIDATES := TOP_K_CANDIDATES g;
     FINAL_LIST_SIZE := FINAL_LIST_SIZE g;
     W_MODEL := W_MODEL g;
     W_PROFIT := W_PROFIT g;
     W_STOCK := W_STOCK g;
     model := model g;
     retailer_map := retailer_map g;
     product_map := d;
     product_vectors_data := product_vectors_data g;
     product_catalog := product_catalog g;
     retailer_profiles := retailer_profiles g |}.

Definition with_profiles (g : globals) (d : gmap string retailer_row)
    : globals :=
  {| TOP_K_CANDIDATES := TOP_K_CANDIDATES g;
     FINAL_LIST_SIZE := FINAL_LIST_SIZE g;
     W_MODEL := W_MODEL g;
     W_PROFIT := W_PROFIT g;
     W_STOCK := W_STOCK g;
     model := model g;
     retailer_map := retailer_map g;
     product_map := product_map g;
     product_vectors_data := product_vectors_data g;
     product_catalog := product_catalog g;
     retailer_profiles := d |}.

(** *** [load_artifacts] *)

Section Load.
Context `{Storage}.

Definition load_artifacts : L () :=
  _ ← do (printed "Loading TensorFlow Model...");
  _ ← try_except
        (m ← call (load_model_called MODEL_PATH) (keras_load_model MODEL_PATH);
         _ ← assign (λ g, with_scorer g m);
         do (printed "Model loaded successfully."))
        (λ e, raise_exc
                {| exc_type := "RuntimeError";
                   exc_str := "Failed to load model from " +:+ MODEL_PATH
                                +:+ ": " +:+ exc_str e |});
  let path := path_join ARTIFACTS_DIR "retailer_map.pkl" in
  d ← call (opened path) (pickle_load_retailer_map path);
  _ ← assign (λ g, with_retailer_map g d);
  let path := path_join ARTIFACTS_DIR "product_map.pkl" in
  d ← call (opened path) (pickle_load_product_map path);
  _ ← assign (λ g, with_product_map g d);
  let path := path_join ARTIFACTS_DIR "product_vectors.pkl" in
  d ← call (opened path) (pickle_load_product_vectors path);
  _ ← assign (λ g, with_vectors g d);
  let path := path_join ARTIFACTS_DIR "product_catalog.csv" in
  product_df ← call (read_csv_called path) (read_csv_products path);
  let path := path_join ARTIFACTS_DIR "retailer_profiles.csv" in
  retailer_df ← call (read_csv_called path) (read_csv_retailers path);
  d ← lift_result (to_dict_index product_df);
  _ ← assign (λ g, with_catalog g d);
  d ← lift_result (to_dict_index retailer_df);
  _ ← assign (λ g, with_profiles g d);
  do (printed "All artifacts loaded. Ready for inference.").

(** [startup_event]: the FastAPI startup hook. *)
Definition startup_event : L () := load_artifacts.

End Load.

(** *** What a load does, step by step *)

(** The process [p] with the globals [g], once the effects [evs] have
    happened. *)
Definition advanced (p : process) (g : globals) (evs : list effect)
    : process :=
  {| globals_now := g; effects := effects p ++ evs |}.

Definition model_load_error (e : py_exception) : py_exception :=
  {| exc_type := "RuntimeError";
     exc_str := "Failed to load model from " +:+ MODEL_PATH
                  +:+ ": " +:+ exc_str e |}.

(** The effects of a load up to each of its reads. *)
Definition until_model : list effect :=
  [printed "Loading TensorFlow Model..."; load_model_called MODEL_PATH].

Definition until_retailer_map : list effect :=
  until_model ++ [printed "Model loaded successfully.";
                  opened "model_artifacts/retailer_map.pkl"].

Definition until_product_map : list effect :=
  until_retailer_map ++ [opened "model_artifacts/product_map.pkl"].

Definition until_product_vectors : list effect :=
  until_product_map ++ [opened "model_artifacts/product_vectors.pkl"].

Definition until_product_catalog : list effect :=
  until_product_vectors
    ++ [read_csv_called "model_artifacts/product_catalog.csv"].

Definition until_retailer_profiles : list effect :=
  until_product_catalog
    ++ [read_csv_called "model_artifacts/retailer_profiles.csv"].

Definition until_ready : list effect :=
  until_retailer_profiles
    ++ [printed "All artifacts loaded. Ready for inference."].

Section LoadFacts.
Context `{Storage}.

Lemma advanced_start p : p = advanced p (globals_now p) [].
Proof. destruct p. unfold advanced. simpl. by rewrite app_nil_r. Qed.

Lemma bind_do {A} ev (f : () → L A) p g evs :
  (do ev ≫= f) (advanced p g evs) = f () (advanced p g (evs ++ [ev])).
Proof.
  unfold advanced, mbind, L_bind, do. simpl. by rewrite <- (assoc_L (++)).
Qed.

Lemma bind_assign {A} u (f : () → L A) p g evs :
  (assign u ≫= f) (advanced p g evs) = f () (advanced p (u g) evs).
Proof. done. Qed.

Lemma bind_call_Ok {A B} ev (a : A) (f : A → L B) p g evs :
  (call ev (Ok a) ≫= f) (advanced p g evs)
  = f a (advanced p g (evs ++ [ev])).
Proof.
  unfold advanced, call, mbind, L_bind, do, lift_result. simpl.
  by rewrite <- (assoc_L (++)).
Qed.

Lemma bind_call_Err {A B} ev e (f : A → L B) p g evs :
  (call ev (Err e) ≫= f) (advanced p g evs)
  = (Err e, advanced p g (evs ++ [ev])).
Proof.
  unfold advanced, call, mbind, L_bind, do, lift_result. simpl.
  by rewrite <- (assoc_L (++)).
Qed.

Lemma bind_lift_Ok {A B} (a : A) (f : A → L B) p :
  (lift_result (Ok a) ≫= f) p = f a p.
Proof. done. Qed.

Lemma bind_lift_Err {A B} e (f : A → L B) p :
  (lift_result (Err e) ≫= f) p = (Err e, p).
Proof. done. Qed.

Lemma bind_try_except {A B} (body : L A) handler (f : A → L B) p :
  (try_except body handler ≫= f) p
  = match body p with
    | (Ok a, p') => f a p'
    | (Err e, p') =>
        match handler e p' with
        | (Ok a, p'') => f a p''
        | (Err e', p'') => (Err e', p'')
        end
    end.
Proof.
  unfold try_except, mbind, L_bind. by destruct (body p) as [[a|e] p'].
Qed.

Lemma do_last ev p g evs :
  do ev (advanced p g evs) = (Ok (), advanced p g (evs ++ [ev])).
Proof. unfold advanced, do. simpl. by rewrite <- (assoc_L (++)). Qed.

Lemma load_artifacts_run p :
  load_artifacts p =
    let g := globals_now p in
    match keras_load_model MODEL_PATH with
    | Err e => (Err (model_load_error e), advanced p g until_model)
    | Ok m =>
    let g := with_scorer g m in
    match pickle_load_retailer_map "model_artifacts/retailer_map.pkl" with
    | Err e => (Err e, advanced p g until_retailer_map)
    | Ok d =>
    let g := with_retailer_map g d in
    match pickle_load_product_map "model_artifacts/product_map.pkl" with
    | Err e => (Err e, advanced p g until_product_map)
    | Ok d =>
    let g := with_product_map g d in
    match pickle_load_product_vectors "model_artifacts/product_vectors.pkl" with
    | Err e => (Err e, advanced p g until_product_vectors)
    | Ok d =>
    let g := with_vectors g d in
    match read_csv_products "model_artifacts/product_catalog.csv" with
    | Err e => (Err e, advanced p g until_product_catalog)
    | Ok product_df =>
    match read_csv_retailers "model_artifacts/retailer_profiles.csv" with
    | Err e => (Err e, advanced p g until_retailer_profiles)
    | Ok retailer_df =>
    match to_dict_index product_df with
    | Err e => (Err e, advanced p g until_retailer_profiles)
    | Ok d =>
    let g := with_catalog g d in
    match to_dict_index retailer_df with
    | Err e => (Err e, advanced p g until_retailer_profiles)
    | Ok d => (Ok (), advanced p (with_profiles g d) until_ready)
    end end end end end end end end.
Proof.
  rewrite (advanced_start p) at 1.
  unfold load_artifacts. rewrite bind_do, bind_try_except.
  change (path_join ARTIFACTS_DIR "retailer_map.pkl")
    with "model_artifacts/retailer_map.pkl".
  change (path_join ARTIFACTS_DIR "product_map.pkl")
    with "model_artifacts/product_map.pkl".
  change (path_join ARTIFACTS_DIR "product_vectors.pkl")
    with "model_artifacts/product_vectors.pkl".
  change (path_join ARTIFACTS_DIR "product_catalog.csv")
    with "model_artifacts/product_catalog.csv".
  change (path_join ARTIFACTS_DIR "retailer_profiles.csv")
    with "model_artifacts/retailer_profiles.csv".
  cbv zeta.
  destruct (keras_load_model MODEL_PATH) as [m|e].
  2: { by rewrite bind_call_Err. }
  rewrite bind_call_Ok, bind_assign, do_last.
  destruct (pickle_load_retailer_map _) as [rm|e].
  2: { by rewrite bind_call_Err. }
  rewrite bind_call_Ok, bind_assign.
  destruct (pickle_load_product_map _) as [pm|e].
  2: { by rewrite bind_call_Err. }
  rewrite bind_call_Ok, bind_assign.
  destruct (pickle_load_product_vectors _) as [pv|e].
  2: { by rewrite bind_call_Err. }
  rewrite bind_call_Ok, bind_assign.
  destruct (read_csv_products _) as [pdf|e].
  2: { by rewrite bind_call_Err. }
  rewrite bind_call_Ok.
  destruct (read_csv_retailers _) as [rdf|e].
  2: { by rewrite bind_call_Err. }
  rewrite bind_call_Ok.
  destruct (to_dict_index pdf) as [pc|e].
  2: { by rewrite bind_lift_Err. }
  rewrite bind_lift_Ok, bind_assign.
  destruct (to_dict_index rdf) as [rp|e].
  2: { by rewrite bind_lift_Err. }
  by rewrite bind_lift_Ok, bind_assign, do_last.
Qed.

End LoadFacts.

Lemma to_dict_index_Ok {row} (df : frame row) :
  NoDup df.*1 → to_dict_index df = Ok (list_to_map df).
Proof. intros Hdf. unfold to_dict_index. by rewrite decide_True. Qed.

Lemma to_dict_index_Err {row} (df : frame row) :
  ¬ NoDup df.*1 →
  to_dict_index df
  = Err {| exc_type := "ValueError";
           exc_str := "DataFrame index must be unique for orient='index'." |}.
Proof. intros Hdf. unfold to_dict_index. by rewrite decide_False. Qed.

Lemma elem_of_list_to_map_NoDup {row} (df : frame row) k v :
  NoDup df.*1 →
  (list_to_map df : gmap string row) !! k = Some v ↔ (k, v) ∈ df.
Proof. intros Hdf. symmetry. by apply elem_of_list_to_map. Qed.

(** *** A storage to run the load on *)

Definition file_not_found (path : string) : py_exception :=
  {| exc_type := "FileNotFoundError";
     exc_str := "[Errno 2] No such file or directory: '" +:+ path +:+ "'" |}.

(** A read of [path] that finds [content] under the name [stored]. *)
Definition read_at {A} (stored : string) (content : result A)
    (path : string) : result A :=
  if decide (path = stored) then content else Err (file_not_found path).

(** The storage with the given content under the six names the service
    reads. *)
Definition storage_with
    (model_file : result (model_inputs → list float))
    (retailer_map_pkl : result (gmap string Z))
    (product_map_pkl : result (list (string * Z)))
    (product_vectors_pkl : result (gmap string (list float)))
    (product_catalog_csv : result (frame product_row))
    (retailer_profiles_csv : result (frame retailer_row)) : Storage :=
  {| keras_load_model := read_at MODEL_PATH model_file;
     pickle_load_retailer_map :=
       read_at "model_artifacts/retailer_map.pkl" retailer_map_pkl;
     pickle_load_product_map :=
       read_at "model_artifacts/product_map.pkl" product_map_pkl;
     pickle_load_product_vectors :=
       read_at "model_artifacts/product_vectors.pkl" product_vectors_pkl;
     read_csv_products :=
       read_at "model_artifacts/product_catalog.csv" product_catalog_csv;
     read_csv_retailers :=
       read_at "model_artifacts/retailer_profiles.csv" retailer_profiles_csv |}.

(** The artifacts of the three-product deployment, as data_prep.py would
    have written them for two retailers of which only the first occurs in
    the data. *)
Definition example_scorer : model_inputs → list float :=
  model Example.deployment.

Definition example_retailer_map : gmap string Z :=
  list_to_map (DataPrep.retailer_map 2).

Definition example_product_map : list (string * Z) := DataPrep.product_map 3.

Definition example_vectors : gmap string (list float) :=
  product_vectors_data Example.deployment.

Definition example_product_csv : frame product_row :=
  [("P0000", {| Category := 0; ProfitMargin := 0.1; CurrentStock := 10 |});
   ("P0001", {| Category := 1; ProfitMargin := 0.4; CurrentStock := 200 |});
   ("P0002", {| Category := 2; ProfitMargin := 0.25; CurrentStock := 60 |})].

Definition example_retailer_csv : frame retailer_row :=
  [("R000", {| StoreType := 1; LocationTier := 2 |})].

Definition example_storage : Storage :=
  storage_with (Ok example_scorer) (Ok example_retailer_map)
    (Ok example_product_map) (Ok example_vectors)
    (Ok example_product_csv) (Ok example_retailer_csv).

(** The module before any load: the constants, no table.  ([model] is
    [None] then; no request reaches it while [retailer_map] is empty.) *)
Definition unloaded : globals :=
  {| TOP_K_CANDIDATES := 500;
     FINAL_LIST_SIZE := 10;
     W_MODEL := 0.5;
     W_PROFIT := 0.3;
     W_STOCK := 0.2;
     model := λ _, [];
     retailer_map := ∅;
     product_map := [];
     product_vectors_data := ∅;
     product_catalog := ∅;
     retailer_profiles := ∅ |}.

Definition started : process := {| globals_now := unloaded; effects := [] |}.

(** *** Properties of the load *)


(** A load whose six reads succeed, on tables without a repeated id,
    replaces the model, the three pickled tables and the two dicts built
    from the CSV files, and leaves the constants alone; each dict maps an
    id to its row exactly for the rows of the file.  The reads happen in
    the order model, retailer_map, product_map, product_vectors,
    product_catalog, retailer_profiles, between the three printed lines. *)
Theorem load_replaces_the_tables `{Storage} p m rm pm pv product_df
    retailer_df :
  keras_load_model MODEL_PATH = Ok m →
  pickle_load_retailer_map "model_artifacts/retailer_map.pkl" = Ok rm →
  pickle_load_product_map "model_artifacts/product_map.pkl" = Ok pm →
  pickle_load_product_vectors "model_artifacts/product_vectors.pkl" = Ok pv →
  read_csv_products "model_artifacts/product_catalog.csv" = Ok product_df →
  read_csv_retailers "model_artifacts/retailer_profiles.csv"
    = Ok retailer_df →
  NoDup product_df.*1 → NoDup retailer_df.*1 →
  ∃ g,
    load_artifacts p
    = (Ok (),
       {| globals_now := g;
          effects := effects p
            ++ [printed "Loading TensorFlow Model...";
                load_model_called "model_artifacts/hybrid_recommender.h5";
                printed "Model loaded successfully.";
                opened "model_artifacts/retailer_map.pkl";
                opened "model_artifacts/product_map.pkl";
                opened "model_artifacts/product_vectors.pkl";
                read_csv_called "model_artifacts/product_catalog.csv";
                read_csv_called "model_artifacts/retailer_profiles.csv";
                printed "All artifacts loaded. Ready for inference."] |})
    ∧ model g = m ∧ retailer_map g = rm ∧ product_map g = pm
    ∧ product_vectors_data g = pv
    ∧ (∀ pid row, product_catalog g !! pid = Some row ↔ (pid, row) ∈ product_df)
    ∧ (∀ rid row,
         retailer_profiles g !! rid = Some row ↔ (rid, row) ∈ retailer_df)
    ∧ TOP_K_CANDIDATES g = TOP_K_CANDIDATES (globals_now p)
    ∧ FINAL_LIST_SIZE g = FINAL_LIST_SIZE (globals_now p)
    ∧ W_MODEL g = W_MODEL (globals_now p)
    ∧ W_PROFIT g = W_PROFIT (globals_now p)
    ∧ W_STOCK g = W_STOCK (globals_now p).
Proof.
  intros Hm Hrm Hpm Hpv Hpdf Hrdf Hpids Hrids.
  eexists. split.
  - rewrite load_artifacts_run, Hm, Hrm, Hpm, Hpv, Hpdf, Hrdf.
    rewrite !to_dict_index_Ok by done. reflexivity.
  - cbn. split_and!; try done; intros ??; by apply elem_of_list_to_map_NoDup.
Qed.

(** A load is not atomic: when a later read fails its exception
    propagates as it is, and what was assigned before stays assigned.  If
    product_map.pkl cannot be read, the model and [retailer_map] are the new
    ones while [product_map], the vectors, the catalog and the profiles are
    the old ones. *)
Theorem failed_load_is_partial `{Storage} p m rm e :
  keras_load_model MODEL_PATH = Ok m →
  pickle_load_retailer_map "model_artifacts/retailer_map.pkl" = Ok rm →
  pickle_load_product_map "model_artifacts/product_map.pkl" = Err e →
  ∃ p',
    load_artifacts p = (Err e, p')
    ∧ model (globals_now p') = m
    ∧ retailer_map (globals_now p') = rm
    ∧ product_map (globals_now p') = product_map (globals_now p)
    ∧ product_vectors_data (globals_now p')
      = product_vectors_data (globals_now p)
    ∧ product_catalog (globals_now p') = product_catalog (globals_now p)
    ∧ retailer_profiles (globals_now p') = retailer_profiles (globals_now p)
    ∧ effects p'
      = effects p
          ++ [printed "Loading TensorFlow Model...";
              load_model_called "model_artifacts/hybrid_recommender.h5";
              printed "Model loaded successfully.";
              opened "model_artifacts/retailer_map.pkl";
              opened "model_artifacts/product_map.pkl"].
Proof.
  intros Hm Hrm Hpm. eexists. split.
  - by rewrite load_artifacts_run, Hm, Hrm, Hpm.
  - done.
Qed.

(** A product id that occurs on two lines of product_catalog.csv makes the
    load fail with the [ValueError] of [to_dict('index')], after all six
    reads: the model and the three pickled tables are the new ones, the
    catalog and the profiles are the old ones, and the last line is not
    printed. *)
Theorem repeated_product_id_rejected `{Storage} p m rm pm pv product_df
    retailer_df :
  keras_load_model MODEL_PATH = Ok m →
  pickle_load_retailer_map "model_artifacts/retailer_map.pkl" = Ok rm →
  pickle_load_product_map "model_artifacts/product_map.pkl" = Ok pm →
  pickle_load_product_vectors "model_artifacts/product_vectors.pkl" = Ok pv →
  read_csv_products "model_artifacts/product_catalog.csv" = Ok product_df →
  read_csv_retailers "model_artifacts/retailer_profiles.csv"
    = Ok retailer_df →
  ¬ NoDup product_df.*1 →
  ∃ p',
    load_artifacts p
    = (Err {| exc_type := "ValueError";
              exc_str :=
                "DataFrame index must be unique for orient='index'." |}, p')
    ∧ model (globals_now p') = m
    ∧ retailer_map (globals_now p') = rm
    ∧ product_map (globals_now p') = pm
    ∧ product_vectors_data (globals_now p') = pv
    ∧ product_catalog (globals_now p') = product_catalog (globals_now p)
    ∧ retailer_profiles (globals_now p') = retailer_profiles (globals_now p)
    ∧ effects p'
      = effects p
          ++ [printed "Loading TensorFlow Model...";
              load_model_called "model_artifacts/hybrid_recommender.h5";
              printed "Model loaded successfully.";
              opened "model_artifacts/retailer_map.pkl";
              opened "model_artifacts/product_map.pkl";
              opened "model_artifacts/product_vectors.pkl";
              read_csv_called "model_artifacts/product_catalog.csv";
              read_csv_called "model_artifacts/retailer_profiles.csv"].
Proof.
  intros Hm Hrm Hpm Hpv Hpdf Hrdf Hdup. eexists. split.
  - rewrite load_artifacts_run, Hm, Hrm, Hpm, Hpv, Hpdf, Hrdf.
    by rewrite to_dict_index_Err.
  - done.
Qed.

(** After a successful startup, a request for a retailer that is in the
    pickled [retailer_map] but on no line of retailer_profiles.csv gets the
    [KeyError] of its id, not the 404: the two files have to agree on the
    retailers. *)
Theorem request_after_startup `{Runtime, Storage} p request m rm pm pv
    product_df retailer_df :
  keras_load_model MODEL_PATH = Ok m →
  pickle_load_retailer_map "model_artifacts/retailer_map.pkl" = Ok rm →
  pickle_load_product_map "model_artifacts/product_map.pkl" = Ok pm →
  pickle_load_product_vectors "model_artifacts/product_vectors.pkl" = Ok pv →
  read_csv_products "model_artifacts/product_catalog.csv" = Ok product_df →
  read_csv_retailers "model_artifacts/retailer_profiles.csv"
    = Ok retailer_df →
  NoDup product_df.*1 → NoDup retailer_df.*1 →
  is_Some (rm !! retailer_id request) →
  retailer_id request ∉ retailer_df.*1 →
  let w := {| module_globals := globals_now (startup_event p).2;
              trace := [] |} in
  (startup_event p).1 = Ok ()
  ∧ get_hybrid_recommendations request w
    = (Raises (KeyError (retailer_id request)), w).
Proof.
  intros Hm Hrm Hpm Hpv Hpdf Hrdf Hpids Hrids [idx Hidx] Hnot w. subst w.
  unfold startup_event.
  rewrite load_artifacts_run, Hm, Hrm, Hpm, Hpv, Hpdf, Hrdf.
  rewrite !to_dict_index_Ok by done. cbn [fst snd globals_now advanced].
  split; [done|].
  rewrite get_hybrid_recommendations_run. cbn. rewrite Hidx.
  by rewrite (not_elem_of_list_to_map_1 retailer_df _ Hnot).
Qed.


Lemma load_replaces_the_tables_witness :
  ∃ g,
    load_artifacts (H:=example_storage) started
    = (Ok (),
       {| globals_now := g;
          effects := effects started
            ++ [printed "Loading TensorFlow Model...";
                load_model_called "model_artifacts/hybrid_recommender.h5";
                printed "Model loaded successfully.";
                opened "model_artifacts/retailer_map.pkl";
                opened "model_artifacts/product_map.pkl";
                opened "model_artifacts/product_vectors.pkl";
                read_csv_called "model_artifacts/product_catalog.csv";
                read_csv_called "model_artifacts/retailer_profiles.csv";
                printed "All artifacts loaded. Ready for inference."] |})
    ∧ model g = example_scorer ∧ retailer_map g = example_retailer_map
    ∧ product_map g = example_product_map
    ∧ product_vectors_data g = example_vectors
    ∧ (∀ pid row,
         product_catalog g !! pid = Some row ↔ (pid, row) ∈ example_product_csv)
    ∧ (∀ rid row,
         retailer_profiles g !! rid = Some row
         ↔ (rid, row) ∈ example_retailer_csv)
    ∧ TOP_K_CANDIDATES g = 500
    ∧ FINAL_LIST_SIZE g = 10
    ∧ W_MODEL g = 0.5%float
    ∧ W_PROFIT g = 0.3%float
    ∧ W_STOCK g = 0.2%float.
Proof.
  apply (load_replaces_the_tables (H:=example_storage) started);
    try reflexivity; apply (bool_decide_unpack _); by vm_compute.
Defined.

Lemma failed_load_is_partial_witness :
  ∃ p',
    load_artifacts
      (H:=storage_with (Ok example_scorer) (Ok example_retailer_map)
            (Err (file_not_found "model_artifacts/product_map.pkl"))
            (Ok example_vectors) (Ok example_product_csv)
            (Ok example_retailer_csv))
      started
    = (Err (file_not_found "model_artifacts/product_map.pkl"), p')
    ∧ model (globals_now p') = example_scorer
    ∧ retailer_map (globals_now p') = example_retailer_map
    ∧ product_map (globals_now p') = []
    ∧ product_vectors_data (globals_now p') = ∅
    ∧ product_catalog (globals_now p') = ∅
    ∧ retailer_profiles (globals_now p') = ∅
    ∧ effects p'
      = effects started
          ++ [printed "Loading TensorFlow Model...";
              load_model_called "model_artifacts/hybrid_recommender.h5";
              printed "Model loaded successfully.";
              opened "model_artifacts/retailer_map.pkl";
              opened "model_artifacts/product_map.pkl"].
Proof.
  apply (failed_load_is_partial
           (H:=storage_with (Ok example_scorer) (Ok example_retailer_map)
                 (Err (file_not_found "model_artifacts/product_map.pkl"))
                 (Ok example_vectors) (Ok example_product_csv)
                 (Ok example_retailer_csv))
           started);
    reflexivity.
Defined.

(** The catalog of the example with the line of P0001 written twice. *)
Definition repeated_product_csv : frame product_row :=
  example_product_csv
    ++ [("P0001", {| Category := 1; ProfitMargin := 0.4; CurrentStock := 200 |})].

Lemma repeated_product_id_rejected_witness :
  ∃ p',
    load_artifacts
      (H:=storage_with (Ok example_scorer) (Ok example_retailer_map)
            (Ok example_product_map) (Ok example_vectors)
            (Ok repeated_product_csv) (Ok example_retailer_csv))
      started
    = (Err {| exc_type := "ValueError";
              exc_str :=
                "DataFrame index must be unique for orient='index'." |}, p')
    ∧ model (globals_now p') = example_scorer
    ∧ retailer_map (globals_now p') = example_retailer_map
    ∧ product_map (globals_now p') = example_product_map
    ∧ product_vectors_data (globals_now p') = example_vectors
    ∧ product_catalog (globals_now p') = ∅
    ∧ retailer_profiles (globals_now p') = ∅
    ∧ effects p'
      = effects started
          ++ [printed "Loading TensorFlow Model...";
              load_model_called "model_artifacts/hybrid_recommender.h5";
              printed "Model loaded successfully.";
              opened "model_artifacts/retailer_map.pkl";
              opened "model_artifacts/product_map.pkl";
              opened "model_artifacts/product_vectors.pkl";
              read_csv_called "model_artifacts/product_catalog.csv";
              read_csv_called "model_artifacts/retailer_profiles.csv"].
Proof.
  apply (repeated_product_id_rejected
           (H:=storage_with (Ok example_scorer) (Ok example_retailer_map)
                 (Ok example_product_map) (Ok example_vectors)
                 (Ok repeated_product_csv) (Ok example_retailer_csv))
           started example_scorer example_retailer_map example_product_map
           example_vectors repeated_product_csv example_retailer_csv);
    try reflexivity.
  apply (bool_decide_eq_false_1 (NoDup _)). by vm_compute.
Defined.

Lemma request_after_startup_witness :
  let w := {| module_globals :=
                globals_now (startup_event (H:=example_storage) started).2;
              trace := [] |} in
  (startup_event (H:=example_storage) started).1 = Ok ()
  ∧ get_hybrid_recommendations (H:=reference_runtime legacy)
      {| retailer_id := "R001" |} w
    = (Raises (KeyError "R001"), w).
Proof.
  apply (request_after_startup (H:=reference_runtime legacy)
           (H0:=example_storage) started {| retailer_id := "R001" |}
           example_scorer example_retailer_map example_product_map
           example_vectors example_product_csv example_retailer_csv);
    try reflexivity.
  - apply (bool_decide_unpack _). by vm_compute.
  - apply (bool_decide_unpack _). by vm_compute.
  - by eexists.
  - apply (bool_decide_unpack _). by vm_compute.
Defined.

End Startup.
